(** * Interaction log: grouped history, correction matching, correction intake

    A shallow embedding of [BACKEND/lambda_function.py]: the DynamoDB-backed
    interaction log, the paginated history handler that groups log records by
    [InteractionId], the keyword matcher over administrative corrections and
    the handler that stores a correction.

    Conventions of the embedding.
    - A DynamoDB item and a parsed JSON body are Python dicts with string keys;
      they are finite maps [gmap string string].  Every attribute the program
      writes is a string, and the model keeps attribute values in that type.
    - Python [str] is [string]; comparison of two [str] is the lexicographic
      order on characters, [String.leb].  The tokenizer and [str.lower] are
      modelled on ASCII text.
    - Python [int] is [Z]; [//] is [Z.div] (both round towards minus infinity).
    - A Python [dict] that is iterated is an association list in insertion
      order; a Python [set] is a [gset].
    - Exceptions are an explicit outcome; the [while True] loop runs on fuel. *)

From Stdlib Require Import ZArith Ascii String Sorted Permutation.
From stdpp Require Import gmap strings list fin_maps.

Open Scope string_scope.
Open Scope Z_scope.

(* The stdpp solvers clear hypotheses they have already consumed. *)
Set Warnings "-clear-no-such-hyp".

(** ** Python primitives *)

Module Py.

(** Truth value of [d.get(k)] for a string-valued dict: [None] and the
    empty string are false. *)
Definition truthy (o : option string) : bool :=
  match o with
  | Some "" => false
  | Some _ => true
  | None => false
  end.

(** Truth value of an optional dict ([response.get('LastEvaluatedKey')]):
    [None] and the empty dict are false. *)
Definition truthy_dict (o : option (gmap string string)) : bool :=
  match o with
  | Some d => bool_decide (d ≠ ∅)
  | None => false
  end.

(** [d.get(k, dflt)]. *)
Definition get_default (d : gmap string string) (k dflt : string) : string :=
  default dflt (d !! k).

(** [d[k]], read only where the key is known to be present. *)
Definition subscript (d : gmap string string) (k : string) : string :=
  default "" (d !! k).

(** [sorted(l, key=key)] and [l.sort(key=key)]: a stable sort.  [le] is the
    order on keys; an element is placed in front of the first element of the
    sorted tail that it does not exceed, so equal keys keep their order. *)
Fixpoint insert_by {A K : Type} (le : K → K → bool) (key : A → K)
    (x : A) (l : list A) : list A :=
  match l with
  | [] => [x]
  | y :: l' => if le (key x) (key y) then x :: y :: l'
               else y :: insert_by le key x l'
  end.

Fixpoint sorted {A K : Type} (le : K → K → bool) (key : A → K)
    (l : list A) : list A :=
  match l with
  | [] => []
  | x :: l' => insert_by le key x (sorted le key l')
  end.

(** [x] may stand before [y] in a list sorted by [key] under [le]. *)
Definition key_le {A K : Type} (le : K → K → bool) (key : A → K) (x y : A) : Prop :=
  le (key x) (key y) = true.

(** The order used without [reverse], and the one used with [reverse=True]
    (which keeps the original order of equal keys as well). *)
Definition ascending (a b : string) : bool := String.leb a b.
Definition descending (a b : string) : bool := String.leb b a.

(** [max] of a non-empty sequence of strings, given as head and tail. *)
Definition max_str (x : string) (xs : list string) : string :=
  foldl (λ m y, if String.ltb m y then y else m) x xs.

(** Index normalisation of [l[start:stop]] for a list of length [len]. *)
Definition slice_index (len i : Z) : Z :=
  if i <? 0 then Z.max (i + len) 0 else Z.min i len.

(** [l[start:stop]]. *)
Definition slice {A : Type} (l : list A) (start stop : Z) : list A :=
  let len := Z.of_nat (length l) in
  let lo := slice_index len start in
  let hi := slice_index len stop in
  take (Z.to_nat (hi - lo)) (drop (Z.to_nat lo) l).

(** ASCII [str.lower]. *)
Definition lower_char (c : ascii) : ascii :=
  let n := nat_of_ascii c in
  if ((65 <=? n) && (n <=? 90))%nat then ascii_of_nat (n + 32) else c.

Fixpoint lower (s : string) : string :=
  match s with
  | EmptyString => EmptyString
  | String c s' => String (lower_char c) (lower s')
  end.

(** The class [\w] on ASCII: letters, digits and the underscore. *)
Definition is_word (c : ascii) : bool :=
  let n := nat_of_ascii c in
  (((48 <=? n) && (n <=? 57)) || ((65 <=? n) && (n <=? 90))
   || ((97 <=? n) && (n <=? 122)) || (n =? 95))%nat.

(** [re.findall(r'\b\w+\b', s)]: the scanner keeps the word read so far in
    [cur]; a non-word character or the end of the text closes it.  The
    matches are the maximal runs of word characters, left to right. *)
Definition close_word (cur : string) : list string :=
  match cur with
  | EmptyString => []
  | _ => [cur]
  end.

Fixpoint scan_words (cur : string) (s : string) : list string :=
  match s with
  | EmptyString => close_word cur
  | String c s' =>
      if is_word c then scan_words (cur ++ String c EmptyString) s'
      else close_word cur ++ scan_words EmptyString s'
  end.

Definition findall_words (s : string) : list string := scan_words "" s.

(** [sep.join(l)]. *)
Fixpoint join (sep : string) (l : list string) : string :=
  match l with
  | [] => ""
  | [x] => x
  | x :: l' => x ++ sep ++ join sep l'
  end.

End Py.

(** ** Exceptions and outcomes *)

Inductive exn :=
| ClientError (msg : string)
| JSONDecodeError
| ValueError
| ZeroDivisionError.

(** [str(e)], one text per class: the exception carries a message of its own
    only for [ClientError].  For the other classes the text stands for that
    of the raised instance, and no property below depends on its wording
    beyond what the interpreter gives for [//] by zero. *)
Definition exn_str (e : exn) : string :=
  match e with
  | ClientError msg => msg
  | JSONDecodeError => "Expecting value"
  | ValueError => "invalid literal for int() with base 10"
  | ZeroDivisionError => "integer division or modulo by zero"
  end.

(** What running a piece of the program gives: a value, a raised exception,
    or no answer within the fuel given to its loop. *)
Inductive outcome (A : Type) :=
| Return (a : A)
| Raise (e : exn)
| OutOfFuel.
Arguments Return {A} a.
Arguments Raise {A} e.
Arguments OutOfFuel {A}.

Definition bind {A B : Type} (m : outcome A) (k : A → outcome B) : outcome B :=
  match m with
  | Return a => k a
  | Raise e => Raise e
  | OutOfFuel => OutOfFuel
  end.

Notation "x ←! m ; k" := (bind m (λ x, k))
  (at level 20, m at level 100, k at level 200, only parsing).

(** ** Records and the table interface *)

Abbreviation item := (gmap string string).

(** The keyword arguments the program passes to [table.query]. *)
Record query_kwargs := {
  IndexName : string;
  EventTypeValue : string;            (* ':et' of the key condition *)
  SessionIdFilter : option string;    (* FilterExpression 'SessionId = :sid' *)
  ScanIndexForward : bool;
  Limit : option nat;
  ExclusiveStartKey : option item;
}.

(** The part of a query response the program reads. *)
Record query_response := {
  Items : option (list item);
  LastEvaluatedKey : option item;
}.

(** [dynamodb.Table(...)]: the two calls the program makes on it.  Either may
    raise (a [ClientError]); [put_item] changes the table. *)
Class Table (T : Type) := {
  query : T → query_kwargs → exn + query_response;
  put_item : T → item → exn + T;
}.

(** [response.get('Items', [])]. *)
Definition items_of (r : query_response) : list item := default [] (Items r).

Definition nl : string := String (ascii_of_nat 10) EmptyString.

(** ** Log Store: the write path *)

(** [get_utc_timestamp_str()] reads the clock; the embedding takes its result
    as the argument [timestamp_str]. *)
Definition question_item (session_id user_question interaction_id timestamp_str : string) : item :=
  <["SessionId" := session_id]>
  (<["InteractionId" := interaction_id]>
  (<["Timestamp" := timestamp_str]>
  (<["EventType" := "QUESTION"]>
  (<["Timestamp_EventType" := timestamp_str ++ "#QUESTION"]>
  (<["Content" := user_question]> ∅))))).

Definition _log_user_question `{Table T} (table : T) (timestamp_str : string)
    (session_id user_question interaction_id : string) : outcome T :=
  match put_item table (question_item session_id user_question interaction_id timestamp_str) with
  | inl e => Raise e
  | inr table' => Return table'
  end.

Definition ai_response_item (session_id ai_response user_question interaction_id timestamp_str : string) : item :=
  <["SessionId" := session_id]>
  (<["InteractionId" := interaction_id]>
  (<["Timestamp" := timestamp_str]>
  (<["EventType" := "AI_RESPONSE"]>
  (<["Timestamp_EventType" := timestamp_str ++ "#AI_RESPONSE"]>
  (<["Content" := ai_response]>
  (<["UserQuestion" := user_question]> ∅)))))).

Definition _log_ai_response `{Table T} (table : T) (timestamp_str : string)
    (session_id ai_response user_question interaction_id : string) : outcome T :=
  match put_item table (ai_response_item session_id ai_response user_question interaction_id timestamp_str) with
  | inl e => Raise e
  | inr table' => Return table'
  end.

(** ** HTTP responses *)

Record summary_data := {
  totalInteractionGroups : nat;
  totalIndividualLogEntries : nat;
  totalQuestions : nat;
  totalAIResponses : nat;
  totalAdminCorrections : nat;
  uniqueSessionCount : nat;
}.

Record meta_data := {
  current_page : Z;
  total_pages : Z;
  total_interaction_groups : nat;
  limit_per_page : Z;
}.

Record history_data := {
  summary : summary_data;
  history : list item;
  meta : meta_data;
}.

Inductive body_data :=
| Message (message : string)
| HistoryPage (data : history_data).

Record response := {
  statusCode : Z;
  body : body_data;
}.

Definition create_response (status_code : Z) (b : body_data) : response :=
  {| statusCode := status_code; body := b |}.

(** ** Correction Relevance Matcher *)

Definition query_keywords (user_query : string) : gset string :=
  list_to_set (Py.findall_words (Py.lower user_query)).

Definition correction_text (correction : item) : string :=
  Py.lower (Py.get_default correction "UserQuestion" "") ++ " " ++
  Py.lower (Py.get_default correction "OriginalAIResponse" "") ++ " " ++
  Py.lower (Py.get_default correction "Content" "").

Definition correction_keywords (correction : item) : gset string :=
  list_to_set (Py.findall_words (correction_text correction)).

(** [any(keyword in correction_keywords for keyword in query_keywords
         if len(keyword) > 2)]. *)
Definition is_relevant (user_query : string) (correction : item) : bool :=
  bool_decide (set_Exists
    (λ keyword, (2 < String.length keyword)%nat ∧ keyword ∈ correction_keywords correction)
    (query_keywords user_query)).

Definition format_correction (correction : item) : string :=
  "User Question: " ++ Py.get_default correction "UserQuestion" "N/A" ++ nl ++
  "Original AI Response: " ++ Py.get_default correction "OriginalAIResponse" "N/A" ++ nl ++
  "Corrected AI Response: " ++ Py.get_default correction "Content" "N/A".

(** The [for correction in admin_corrections] loop, with its [break]. *)
Fixpoint collect_relevant (user_query : string) (admin_corrections : list item)
    (relevant_corrections : list string) : list string :=
  match admin_corrections with
  | [] => relevant_corrections
  | correction :: rest =>
      if is_relevant user_query correction then
        let relevant_corrections := (relevant_corrections ++ [format_correction correction])%list in
        if (3 <=? length relevant_corrections)%nat then relevant_corrections
        else collect_relevant user_query rest relevant_corrections
      else collect_relevant user_query rest relevant_corrections
  end.

Definition corrections_query : query_kwargs :=
  {| IndexName := "EventType_Timestamp_Index";
     EventTypeValue := "ADMIN_CORRECTION";
     SessionIdFilter := None;
     ScanIndexForward := false;
     Limit := Some 20%nat;
     ExclusiveStartKey := None |}.

Definition relevant_corrections_of (user_query : string) (r : query_response) : list string :=
  collect_relevant user_query (items_of r) [].

Definition get_relevant_admin_corrections `{Table T} (table : T) (user_query : string) : string :=
  match query table corrections_query with
  | inr r =>
      let relevant_corrections := relevant_corrections_of user_query r in
      match relevant_corrections with
      | _ :: _ => "Relevant past administrative corrections:" ++ nl ++
                  Py.join (nl ++ "---" ++ nl) relevant_corrections
      | [] => "No relevant administrative corrections found."
      end
  | inl (ClientError msg) =>
      "An error occurred while retrieving admin corrections: " ++ msg
  | inl e => "An unexpected error occurred: " ++ exn_str e
  end.

(** ** Correction intake *)

Definition required_fields : list string :=
  ["sessionId"; "interactionId"; "userQuestion"; "originalAIResponse"; "correctedAIResponse"].

Definition correction_item (b : item) (timestamp_for_this_record : string) : item :=
  let admin_id := b !! "adminId" in
  let correction_timestamp_from_body := b !! "correctionTimestamp" in
  let it : item :=
    <["SessionId" := Py.subscript b "sessionId"]>
    (<["InteractionId" := Py.subscript b "interactionId"]>
    (<["Timestamp" := timestamp_for_this_record]>
    (<["EventType" := "ADMIN_CORRECTION"]>
    (<["Timestamp_EventType" := timestamp_for_this_record ++ "#ADMIN_CORRECTION"]>
    (<["Content" := Py.subscript b "correctedAIResponse"]>
    (<["UserQuestion" := Py.subscript b "userQuestion"]>
    (<["OriginalAIResponse" := Py.subscript b "originalAIResponse"]> ∅))))))) in
  let it : item :=
    if Py.truthy admin_id then <["AdminId" := Py.subscript b "adminId"]> it else it in
  <["CorrectionTimestamp" :=
      if Py.truthy correction_timestamp_from_body
      then Py.subscript b "correctionTimestamp" else timestamp_for_this_record]> it.

(** [parsed_body] is the result of [json.loads]: [None] when it raises
    [JSONDecodeError].  The handler returns its response and the table as it
    leaves it. *)
Definition handle_admin_correction `{Table T} (table : T) (timestamp_str : string)
    (parsed_body : option item) : response * T :=
  match parsed_body with
  | None => (create_response 400 (Message "Invalid JSON in request body."), table)
  | Some b =>
      if negb (forallb (λ f, Py.truthy (b !! f)) required_fields) then
        (create_response 400 (Message "Missing required fields for admin correction."), table)
      else
        match put_item table (correction_item b timestamp_str) with
        | inr table' =>
            (create_response 200 (Message "Admin correction saved successfully."), table')
        | inl (ClientError _) =>
            (create_response 500 (Message "Failed to save admin correction due to database error."), table)
        | inl e =>
            (create_response 500 (Message ("An unexpected error occurred: " ++ exn_str e)), table)
        end
  end.

(** The required fields a body leaves out (absent or empty). *)
Definition missing_fields (b : item) : list string :=
  filter (λ f, Py.truthy (b !! f) = false) required_fields.

(** ** Log Store: the read path *)

Definition history_query (event_type : string) (session_id_filter : option string)
    (last_evaluated_key : option item) : query_kwargs :=
  {| IndexName := "EventType_Timestamp_Index";
     EventTypeValue := event_type;
     SessionIdFilter := if Py.truthy session_id_filter then session_id_filter else None;
     ScanIndexForward := false;
     Limit := None;
     ExclusiveStartKey := if Py.truthy_dict last_evaluated_key then last_evaluated_key else None |}.

(** The [while True] loop of [fetch_all_items_for_event_type], one iteration
    per unit of fuel, started from the loop variables [all_type_items] and
    [last_evaluated_key]. *)
Fixpoint fetch_loop `{Table T} (fuel : nat) (table : T) (event_type : string)
    (session_id_filter : option string) (all_type_items : list item)
    (last_evaluated_key : option item) : outcome (list item) :=
  match fuel with
  | O => OutOfFuel
  | S fuel' =>
      match query table (history_query event_type session_id_filter last_evaluated_key) with
      | inl e => Raise e
      | inr r =>
          let all_type_items := (all_type_items ++ items_of r)%list in
          let last_evaluated_key := LastEvaluatedKey r in
          if negb (Py.truthy_dict last_evaluated_key) then Return all_type_items
          else fetch_loop fuel' table event_type session_id_filter
                 all_type_items last_evaluated_key
      end
  end.

Definition fetch_all_items_for_event_type `{Table T} (fuel : nat) (table : T)
    (event_type : string) (session_id_filter : option string) : outcome (list item) :=
  fetch_loop fuel table event_type session_id_filter [] None.

(** ** Interaction Grouping and Pagination Engine *)

Module History.

(** [grouped_interactions]: a dict from [InteractionId] to the list of its
    records, in the order the keys were first inserted. *)
Abbreviation groups := (list (string * list item)).

(** [if k not in d: d[k] = []] followed by [d[k].append(x)]. *)
Fixpoint group_append (interaction_id : string) (x : item) (g : groups) : groups :=
  match g with
  | [] => [(interaction_id, [x])]
  | (k, xs) :: g' =>
      if decide (k = interaction_id) then (k, (xs ++ [x])%list) :: g'
      else (k, xs) :: group_append interaction_id x g'
  end.

Definition group_step (g : groups) (x : item) : groups :=
  let interaction_id := x !! "InteractionId" in
  if Py.truthy interaction_id then group_append (Py.subscript x "InteractionId") x g
  else g.

(** Step 2. *)
Definition group_by_interaction (all_items : list item) : groups :=
  foldl group_step [] all_items.

(** ['Timestamp' in item]. *)
Definition has_timestamp (x : item) : Prop := is_Some (x !! "Timestamp").

#[global] Instance has_timestamp_dec (x : item) : Decision (has_timestamp x).
Proof. unfold has_timestamp. apply _. Defined.

Definition timestamp (x : item) : string := Py.subscript x "Timestamp".

(** Step 3, for one group. *)
Definition sort_group (items : list item) : list item :=
  let valid_items := filter has_timestamp items in
  Py.sorted Py.ascending timestamp valid_items.

Definition sort_groups (g : groups) : groups :=
  map (λ p, (p.1, sort_group p.2)) g.

(** Step 4: [(latest_timestamp, interaction_id)] for the non-empty groups. *)
Definition sort_key_of (p : string * list item) : option (string * string) :=
  match p.2 with
  | [] => None
  | x :: xs => Some (Py.max_str (timestamp x) (timestamp <$> xs), p.1)
  end.

Definition interaction_id_sort_keys (g : groups) : list (string * string) :=
  omap sort_key_of g.

(** Step 5. *)
Definition ordered_interaction_ids (g : groups) : list string :=
  (Py.sorted Py.descending fst (interaction_id_sort_keys g)).*2.

(** [grouped_interactions[interaction_id]]. *)
Fixpoint lookup_group (g : groups) (interaction_id : string) : list item :=
  match g with
  | [] => []
  | (k, xs) :: g' => if decide (k = interaction_id) then xs else lookup_group g' interaction_id
  end.

(** [item.get('EventType') == et]. *)
Definition event_type_is (et : string) (x : item) : Prop := x !! "EventType" = Some et.

#[global] Instance event_type_is_dec (et : string) (x : item) : Decision (event_type_is et x).
Proof. unfold event_type_is. apply _. Defined.

Definition session_ids (all_items : list item) : gset string :=
  list_to_set (omap (λ x : item, if Py.truthy (x !! "SessionId") then x !! "SessionId" else None)
                 all_items).

(** The state of the handler after step 5: the dict of sorted groups and the
    ordered ids. *)
Definition grouped_interactions (all_items : list item) : groups :=
  sort_groups (group_by_interaction all_items).

Definition ordered_ids (all_items : list item) : list string :=
  ordered_interaction_ids (grouped_interactions all_items).

(** Step 6: the ids of one page. *)
Definition paginated_interaction_ids (all_items : list item) (page limit : Z) : list string :=
  let start_index := (page - 1) * limit in
  let end_index := start_index + limit in
  Py.slice (ordered_ids all_items) start_index end_index.

(** Step 7. *)
Definition flatten (g : groups) (ids : list string) : list item :=
  foldl (λ acc interaction_id, (acc ++ lookup_group g interaction_id)%list) [] ids.

(** The body of the handler once the records are fetched.  The only
    exception it can raise is the division by a zero [limit]. *)
Definition build_page (all_items : list item) (page limit : Z) : outcome history_data :=
  let grouped := grouped_interactions all_items in
  let ordered := ordered_ids all_items in
  let total_items_raw := length all_items in
  let total_questions := length (filter (event_type_is "QUESTION") all_items) in
  let total_ai_responses := length (filter (event_type_is "AI_RESPONSE") all_items) in
  let total_admin_corrections := length (filter (event_type_is "ADMIN_CORRECTION") all_items) in
  let unique_session_count := size (session_ids all_items) in
  let total_groups := length ordered in
  if limit =? 0 then Raise ZeroDivisionError
  else
    let pages := (Z.of_nat total_groups + limit - 1) `div` limit in
    let paginated_history_items :=
      flatten grouped (paginated_interaction_ids all_items page limit) in
    Return
      {| summary :=
           {| totalInteractionGroups := total_groups;
              totalIndividualLogEntries := total_items_raw;
              totalQuestions := total_questions;
              totalAIResponses := total_ai_responses;
              totalAdminCorrections := total_admin_corrections;
              uniqueSessionCount := unique_session_count |};
         history := paginated_history_items;
         meta :=
           {| current_page := page;
              total_pages := pages;
              total_interaction_groups := total_groups;
              limit_per_page := limit |} |}.

(** Step 1: the three reads, in the order of the source. *)
Definition fetch_all `{Table T} (fuel : nat) (table : T)
    (session_id_filter : option string) : outcome (list item) :=
  a ←! fetch_all_items_for_event_type fuel table "AI_RESPONSE" session_id_filter;
  q ←! fetch_all_items_for_event_type fuel table "QUESTION" session_id_filter;
  c ←! fetch_all_items_for_event_type fuel table "ADMIN_CORRECTION" session_id_filter;
  Return (a ++ q ++ c)%list.

End History.

(** A query parameter that the handler converts with [int(...)]: not given,
    the text of an integer, or any other text. *)
Inductive query_param :=
| NotGiven
| IntText (z : Z)
| OtherText.

(** [int(query_params.get(name, dflt))]. *)
Definition int_param (p : query_param) (dflt : Z) : outcome Z :=
  match p with
  | NotGiven => Return dflt
  | IntText z => Return z
  | OtherText => Raise ValueError
  end.

(** The result is [None] when the fetch loop has not finished within [fuel]
    iterations. *)
Definition handle_admin_history_request `{Table T} (fuel : nat) (table : T)
    (session_id_filter : option string) (page_param limit_param : query_param)
    : option response :=
  match (page ←! int_param page_param 1;
         limit ←! int_param limit_param 20;
         all_items ←! History.fetch_all fuel table session_id_filter;
         History.build_page all_items page limit) with
  | Return response_data => Some (create_response 200 (HistoryPage response_data))
  | Raise ValueError =>
      Some (create_response 400
              (Message "Invalid 'limit' or 'page' query parameter. Must be an integer."))
  | Raise (ClientError _) =>
      Some (create_response 500 (Message "Failed to retrieve history due to database error."))
  | Raise e =>
      Some (create_response 500 (Message ("An unexpected error occurred: " ++ exn_str e)))
  | OutOfFuel => None
  end.

(** ** An in-memory table

    The record store of the deployment is DynamoDB.  [mem_table] is a small
    model of it that implements [Table], used to run the program end to end:
    [rows] in insertion order, the primary key [(SessionId,
    Timestamp_EventType)], the index [EventType_Timestamp_Index] holding the
    rows that carry both index attributes ordered by [Timestamp], and result
    pages of at most [page_size] evaluated rows, continued from the last
    evaluated row. *)

Module MemTable.

Record mem_table := {
  page_size : nat;
  rows : list item;
}.

Definition primary_key (x : item) : option string * option string :=
  (x !! "SessionId", x !! "Timestamp_EventType").

Fixpoint put_row (l : list item) (x : item) : list item :=
  match l with
  | [] => [x]
  | y :: l' => if decide (primary_key y = primary_key x) then x :: l'
               else y :: put_row l' x
  end.

Definition in_index (event_type : string) (x : item) : Prop :=
  x !! "EventType" = Some event_type ∧ is_Some (x !! "Timestamp").

#[global] Instance in_index_dec (event_type : string) (x : item) :
  Decision (in_index event_type x).
Proof. unfold in_index. apply _. Defined.

Definition index_scan (kw : query_kwargs) (l : list item) : list item :=
  Py.sorted (if ScanIndexForward kw then Py.ascending else Py.descending)
    History.timestamp (filter (in_index (EventTypeValue kw)) l).

Fixpoint after_key (k : item) (l : list item) : list item :=
  match l with
  | [] => []
  | x :: l' => if decide (x = k) then l' else after_key k l'
  end.

Definition passes_filter (kw : query_kwargs) (x : item) : Prop :=
  match SessionIdFilter kw with
  | Some sid => x !! "SessionId" = Some sid
  | None => True
  end.

#[global] Instance passes_filter_dec (kw : query_kwargs) (x : item) :
  Decision (passes_filter kw x).
Proof. unfold passes_filter. destruct (SessionIdFilter kw); apply _. Defined.

Definition mem_query (t : mem_table) (kw : query_kwargs) : query_response :=
  let scan := index_scan kw (rows t) in
  let rest := match ExclusiveStartKey kw with
              | Some k => after_key k scan
              | None => scan
              end in
  let n := match Limit kw with
           | Some n => Nat.min n (page_size t)
           | None => page_size t
           end in
  let evaluated := take n rest in
  {| Items := Some (filter (passes_filter kw) evaluated);
     LastEvaluatedKey := if (n <? length rest)%nat then last evaluated else None |}.

#[global] Instance mem_table_Table : Table mem_table := {|
  query t kw := inr (mem_query t kw);
  put_item t x := inr {| page_size := page_size t; rows := put_row (rows t) x |};
|}.

Definition empty (n : nat) : mem_table := {| page_size := n; rows := [] |}.

End MemTable.

(** A table whose reads fail: every call raises [ClientError]. *)
Module FailingTable.

Record failing_table := { error_message : string }.

#[global] Instance failing_table_Table : Table failing_table := {|
  query t _ := inl (ClientError (error_message t));
  put_item t _ := inl (ClientError (error_message t));
|}.

End FailingTable.

(** ** Vocabulary of the specification *)

Module HistorySpec.
Import History.

(** Record [x] belongs to interaction [i]: it carries [i] as a non-empty
    [InteractionId]. *)
Definition in_interaction (i : string) (x : item) : Prop :=
  i ≠ "" ∧ x !! "InteractionId" = Some i.

#[global] Instance in_interaction_dec (i : string) (x : item) :
  Decision (in_interaction i x).
Proof. unfold in_interaction. apply _. Defined.

(** All fetched records of interaction [i], and those that carry a
    timestamp, both in fetch order. *)
Definition records_of (all_items : list item) (i : string) : list item :=
  filter (in_interaction i) all_items.

Definition members (all_items : list item) (i : string) : list item :=
  filter has_timestamp (records_of all_items i).

Definition ascending_by_timestamp (l : list item) : Prop :=
  StronglySorted (λ x y, String.leb (timestamp x) (timestamp y) = true) l.

(** [t] is the maximum timestamp among the records [l]. *)
Definition is_max_timestamp (t : string) (l : list item) : Prop :=
  (∃ x, x ∈ l ∧ timestamp x = t) ∧ ∀ x, x ∈ l → String.leb (timestamp x) t = true.

(** A list of [(sort key, interaction id)] pairs in descending key order. *)
Definition descending_by_key (keys : list (string * string)) : Prop :=
  StronglySorted (λ a b, String.leb b.1 a.1 = true) keys.

(** An entry of the dict of groups whose key is not [i]. *)
Definition other_key (i : string) (p : string * list item) : Prop := p.1 ≠ i.

#[global] Instance other_key_dec (i : string) (p : string * list item) :
  Decision (other_key i p).
Proof. unfold other_key. apply _. Defined.

(** The five aggregate counts of a summary: individual log entries,
    questions, AI responses, admin corrections, sessions. *)
Definition counts (s : summary_data) : nat * nat * nat * nat * nat :=
  (totalIndividualLogEntries s, totalQuestions s, totalAIResponses s,
   totalAdminCorrections s, uniqueSessionCount s).

(** What one record adds to a count by event type. *)
Definition counts_as (et : string) (x : item) : nat :=
  if decide (event_type_is et x) then 1%nat else 0%nat.

(** The session a record adds to the set of sessions, if any. *)
Definition session_of (x : item) : gset string :=
  if Py.truthy (x !! "SessionId") then {[ Py.subscript x "SessionId" ]} else ∅.

(** The ids of pages [1 .. n], one after the other. *)
Definition pages_upto (all_items : list item) (limit : Z) (n : nat) : list string :=
  concat (map (λ p, paginated_interaction_ids all_items (Z.of_nat p) limit) (seq 1 n)).

End HistorySpec.

(** The continuation chain of a read: the result pages the table returns when
    the first request carries no start key and each further request carries
    the key returned with the page before it, up to the first page that comes
    without a key.  A chain is finite by construction. *)
Inductive page_chain `{Table T} (table : T) (event_type : string)
    (session_id_filter : option string) : option item → list (list item) → Prop :=
| chain_last (k : option item) (r : query_response) :
    query table (history_query event_type session_id_filter k) = inr r →
    Py.truthy_dict (LastEvaluatedKey r) = false →
    page_chain table event_type session_id_filter k [items_of r]
| chain_more (k : option item) (r : query_response) (pages : list (list item)) :
    query table (history_query event_type session_id_filter k) = inr r →
    Py.truthy_dict (LastEvaluatedKey r) = true →
    page_chain table event_type session_id_filter (LastEvaluatedKey r) pages →
    page_chain table event_type session_id_filter k (items_of r :: pages).

(** Text within ASCII: every character has a code below 128.  On such text
    [str.lower] changes the letters [A] to [Z] only, the class [\w] is
    [[0-9A-Za-z_]] and [len] counts the characters of the [string], so
    [Py.lower], [Py.is_word] and [String.length] are what the program
    computes. *)
Fixpoint ascii_text (s : string) : bool :=
  match s with
  | EmptyString => true
  | String c s' => (nat_of_ascii c <? 128)%nat && ascii_text s'
  end.

(** A word of a text: a non-empty run of word characters that is not part of
    a longer run, so it starts at the beginning of the text or after a
    character outside [\w], and ends at the end of the text or before one. *)
Fixpoint all_word (s : string) : bool :=
  match s with
  | EmptyString => true
  | String c s' => Py.is_word c && all_word s'
  end.

Definition starts_outside_word (s : string) : bool :=
  match s with
  | EmptyString => true
  | String c _ => negb (Py.is_word c)
  end.

Fixpoint ends_outside_word (s : string) : bool :=
  match s with
  | EmptyString => true
  | String c EmptyString => negb (Py.is_word c)
  | String _ s' => ends_outside_word s'
  end.

Definition occurs_as_word (k text : string) : Prop :=
  k ≠ "" ∧ all_word k = true ∧
  ∃ pre post, text = pre ++ k ++ post ∧
              ends_outside_word pre = true ∧ starts_outside_word post = true.

(** The last character of [s], or [d] for the empty string. *)
Fixpoint last_char (s : string) (d : ascii) : ascii :=
  match s with
  | EmptyString => d
  | String c s' => last_char s' c
  end.

(** The response to a rejected correction would list the missing fields if
    the list could be read off the response. *)
Definition names_missing_fields `{Table T} (table : T) (timestamp_str : string) : Prop :=
  ∃ decode : response → list string,
    ∀ b : item, missing_fields b ≠ [] →
      decode (handle_admin_correction table timestamp_str (Some b)).1 = missing_fields b.

(** The candidates the matcher judges relevant, in fetch order. *)
Definition relevant_candidates (user_query : string) (candidates : list item) : list item :=
  filter (λ c, is_relevant user_query c = true) candidates.

(** ** Sample logs *)

Module Sample.

(** One field-by-field record, as a query would return it. *)
Definition record (event_type session_id interaction_id timestamp_str content : string) : item :=
  <["EventType" := event_type]>
  (<["SessionId" := session_id]>
  (<["InteractionId" := interaction_id]>
  (<["Timestamp" := timestamp_str]>
  (<["Content" := content]> ∅)))).

(** Three interactions [i1], [i2], [i3]; a correction makes [i1] the most
    recently active.  Interaction [i4] has a single record without
    [Timestamp]; the last record has no [InteractionId]. *)
Definition no_timestamp : item :=
  <["EventType" := "QUESTION"]> (<["SessionId" := "s3"]> (<["InteractionId" := "i4"]> ∅)).

Definition no_interaction : item :=
  <["EventType" := "AI_RESPONSE"]> (<["SessionId" := "s4"]>
    (<["Timestamp" := "2024-05-01T10:00:07.000Z"]> ∅)).

Definition log : list item :=
  [ record "AI_RESPONSE" "s1" "i1" "2024-05-01T10:00:03.000Z" "a1";
    record "AI_RESPONSE" "s2" "i2" "2024-05-01T10:00:06.000Z" "a2";
    no_interaction;
    record "QUESTION" "s1" "i1" "2024-05-01T10:00:01.000Z" "q1";
    record "QUESTION" "s2" "i2" "2024-05-01T10:00:05.000Z" "q2";
    record "QUESTION" "s1" "i3" "2024-05-01T10:00:02.000Z" "q3";
    no_timestamp;
    record "ADMIN_CORRECTION" "s1" "i1" "2024-05-01T10:00:09.000Z" "c1" ].

(** [n] interactions of one question each, named by consecutive letters. *)
Definition letter (k : nat) : string := String (ascii_of_nat (65 + k)) EmptyString.

(** A table that returns one row per result page, holding three questions. *)
Definition paged_table : MemTable.mem_table :=
  {| MemTable.page_size := 1;
     MemTable.rows :=
       [ record "QUESTION" "s1" "i1" "2024-05-01T10:00:01.000Z" "q1";
         record "QUESTION" "s1" "i2" "2024-05-01T10:00:02.000Z" "q2";
         record "AI_RESPONSE" "s1" "i1" "2024-05-01T10:00:03.000Z" "a1";
         record "QUESTION" "s2" "i3" "2024-05-01T10:00:04.000Z" "q3" ] |}.

(** Correction requests: complete, without [sessionId], without
    [interactionId]. *)
Definition correction_body : item :=
  <["sessionId" := "s1"]> (<["interactionId" := "i1"]> (<["userQuestion" := "is mileage limited"]>
  (<["originalAIResponse" := "yes"]> (<["correctedAIResponse" := "no, mileage is unlimited"]> ∅)))).

Definition body_without_session : item := delete "sessionId" correction_body.

Definition body_without_interaction : item := delete "interactionId" correction_body.

(** Corrections: the first is the one of the specification's example. *)
Definition correction (interaction_id timestamp_str user_question original content : string)
    : item :=
  <["UserQuestion" := user_question]>
  (<["OriginalAIResponse" := original]>
  (record "ADMIN_CORRECTION" "s1" interaction_id timestamp_str content)).

Definition mileage_correction : item :=
  correction "i1" "2024-05-02T09:00:00.000Z" "can I drive far" "there is a daily cap"
    "unlimited mileage applies to all rentals".

Definition corrections_table : MemTable.mem_table :=
  {| MemTable.page_size := 50;
     MemTable.rows :=
       [ mileage_correction;
         correction "i2" "2024-05-02T09:00:01.000Z" "what is the deposit" "none" "the deposit is 200";
         correction "i3" "2024-05-02T09:00:02.000Z" "Mileage cap?" "yes" "no cap";
         record "QUESTION" "s1" "i4" "2024-05-02T09:00:03.000Z" "mileage";
         correction "i4" "2024-05-02T09:00:04.000Z" "is mileage tracked" "no" "yes, by GPS";
         correction "i5" "2024-05-02T09:00:05.000Z" "weekly rate" "100" "mileage is free, 90 weekly" ] |}.


Definition questions (n : nat) : list item :=
  map (λ k, record "QUESTION" "s" (letter k) ("2024-05-01T10:00:00.000" ++ letter k) "q")
    (seq 0 n).

End Sample.

(** ** Further vocabulary for the history page *)

Module HistoryMore.
Import History HistorySpec.

(** A record that the history can show: it carries a timestamp and a
    non-empty interaction id. *)
Definition shown (x : item) : Prop :=
  has_timestamp x ∧ Py.truthy (x !! "InteractionId") = true.

#[global] Instance shown_dec (x : item) : Decision (shown x).
Proof. unfold shown. apply _. Defined.

(** The history of a page, empty when no page is built. *)
Definition history_of (o : outcome history_data) : list item :=
  match o with
  | Return d => history d
  | _ => []
  end.

(** The histories of pages [1 .. n], one after the other. *)
Definition histories_upto (all_items : list item) (limit : Z) (n : nat) : list item :=
  concat (map (λ p, history_of (build_page all_items (Z.of_nat p) limit)) (seq 1 n)).

(** The non-empty interaction ids of the fetched records, in fetch order. *)
Definition fetched_ids (all_items : list item) : list string :=
  omap (λ x : item, if Py.truthy (x !! "InteractionId") then x !! "InteractionId" else None)
    all_items.

(** The distinct elements of a list, in the order of their first occurrence. *)
Definition distinct_in_order (l : list string) : list string :=
  foldl (λ acc i, if decide (i ∈ acc) then acc else acc ++ [i])%list [] l.

(** The event types the log holds. *)
Definition known_event_type (x : item) : Prop :=
  event_type_is "QUESTION" x ∨ event_type_is "AI_RESPONSE" x ∨
  event_type_is "ADMIN_CORRECTION" x.

End HistoryMore.

(** A read that fails: [n] result pages come with a continuation key, then
    the next request raises [e]. *)
Inductive failing_chain `{Table T} (table : T) (event_type : string)
    (session_id_filter : option string) : option item → nat → exn → Prop :=
| fail_now (k : option item) (e : exn) :
    query table (history_query event_type session_id_filter k) = inl e →
    failing_chain table event_type session_id_filter k 0 e
| fail_later (k : option item) (r : query_response) (n : nat) (e : exn) :
    query table (history_query event_type session_id_filter k) = inr r →
    Py.truthy_dict (LastEvaluatedKey r) = true →
    failing_chain table event_type session_id_filter (LastEvaluatedKey r) n e →
    failing_chain table event_type session_id_filter k (S n) e.

(** An in-memory table one of whose indexes breaks on continuation: a request
    for event type [broken] that carries a start key raises [ClientError]. *)
Module FlakyTable.

Record flaky_table := {
  inner : MemTable.mem_table;
  broken : string;
}.

#[global] Instance flaky_table_Table : Table flaky_table := {|
  query t kw :=
    if decide (EventTypeValue kw = broken t ∧ is_Some (ExclusiveStartKey kw))
    then inl (ClientError "ProvisionedThroughputExceededException")
    else inr (MemTable.mem_query (inner t) kw);
  put_item t x :=
    inr {| inner := {| MemTable.page_size := MemTable.page_size (inner t);
                       MemTable.rows := MemTable.put_row (MemTable.rows (inner t)) x |};
           broken := broken t |};
|}.

End FlakyTable.

(** ** Further samples *)

Module Sample2.

(** One question, one answer and two corrections, one row per result page;
    the index of the corrections breaks on continuation. *)
Definition flaky : FlakyTable.flaky_table :=
  {| FlakyTable.inner :=
       {| MemTable.page_size := 1;
          MemTable.rows :=
            [ Sample.record "QUESTION" "s1" "i1" "2024-05-01T10:00:01.000Z" "q1";
              Sample.record "AI_RESPONSE" "s1" "i1" "2024-05-01T10:00:02.000Z" "a1";
              Sample.record "ADMIN_CORRECTION" "s1" "i1" "2024-05-01T10:00:03.000Z" "c1";
              Sample.record "ADMIN_CORRECTION" "s1" "i1" "2024-05-01T10:00:04.000Z" "c2" ] |};
     FlakyTable.broken := "ADMIN_CORRECTION" |}.

End Sample2.

(** ** The chat handler *)

(** What [agent(user_question)] can return, as far as the handler tells the
    cases apart: an [AgentResult] (with its [str]), a [str], a [dict] (with its
    [str]), anything else (with its [str]). *)
Inductive agent_result :=
| AgentResultObj (text : string)
| StrResult (s : string)
| DictResult (d : item) (repr : string)
| OtherResult (repr : string).

(** [ai_response_text], by the [isinstance] cases of the handler. *)
Definition ai_response_text_of (r : agent_result) : string :=
  match r with
  | AgentResultObj text => text
  | StrResult s => s
  | DictResult d repr =>
      if decide (is_Some (d !! "output"))
      then Py.get_default d "output" "An error occurred while processing your request."
      else repr
  | OtherResult repr => repr
  end.

Inductive chat_body :=
| ChatMessage (message : string)
| ChatReply (reply sessionId interactionId : string).

Record chat_response := {
  chat_status : Z;
  chat_body_of : chat_body;
}.

(** The [except] clauses of the chat handler. *)
Definition chat_error (e : exn) : chat_response :=
  match e with
  | JSONDecodeError =>
      {| chat_status := 400; chat_body_of := ChatMessage "Invalid JSON in request body." |}
  | ClientError msg =>
      {| chat_status := 500;
         chat_body_of := ChatMessage ("An AWS service error occurred: " ++ msg) |}
  | _ =>
      {| chat_status := 500;
         chat_body_of := ChatMessage ("An unexpected error occurred: " ++ exn_str e) |}
  end.

(** The inputs the handler takes from outside: the agent, the two fresh
    UUIDs, and the clock at the two writes. *)
Record chat_env := {
  agent : string → exn + agent_result;
  uuid_session : string;
  uuid_interaction : string;
  clock_question : string;
  clock_answer : string;
}.

(** [parsed_body] is the result of [json.loads], [None] when it raises.  The
    handler returns its response and the table as it leaves it.  The logging
    functions have no loop, so their outcome is a value or an exception. *)
Definition handle_chat_request `{Table T} (env : chat_env) (table : T)
    (parsed_body : option item) : chat_response * T :=
  match parsed_body with
  | None => (chat_error JSONDecodeError, table)
  | Some b =>
      let user_question := b !! "userQuestion" in
      let session_id := Py.get_default b "sessionId" (uuid_session env) in
      let interaction_id := uuid_interaction env in
      if negb (Py.truthy user_question) then
        ({| chat_status := 400;
            chat_body_of := ChatMessage "Missing 'userQuestion' in request body." |}, table)
      else
        let user_question := Py.subscript b "userQuestion" in
        match _log_user_question table (clock_question env) session_id user_question
                interaction_id with
        | Return table1 =>
            match agent env user_question with
            | inr agent_response_obj =>
                let ai_response_text := ai_response_text_of agent_response_obj in
                match _log_ai_response table1 (clock_answer env) session_id ai_response_text
                        user_question interaction_id with
                | Return table2 =>
                    ({| chat_status := 200;
                        chat_body_of := ChatReply ai_response_text session_id interaction_id |},
                     table2)
                | Raise e => (chat_error e, table1)
                | OutOfFuel => (chat_error (ClientError ""), table1)
                end
            | inl e => (chat_error e, table1)
            end
        | Raise e => (chat_error e, table)
        | OutOfFuel => (chat_error (ClientError ""), table)
        end
  end.

(** ** The entry point *)

(** [s.endswith(suffix)]. *)
Fixpoint endswith (s suffix : string) : bool :=
  if String.eqb s suffix then true
  else match s with
       | EmptyString => false
       | String _ s' => endswith s' suffix
       end.

(** The part of the API Gateway event the program reads, with the body
    already parsed and the query parameters already looked up. *)
Record event := {
  httpMethod : option string;
  path : string;
  event_body : option item;
  param_sessionId : option string;
  param_page : query_param;
  param_limit : query_param;
}.

Inductive api_response :=
| ApiResponse (r : response)
| ApiChatResponse (r : chat_response).

(** The result is [None] when a history read has not finished within [fuel]
    iterations. *)
Definition lambda_handler `{Table T} (env : chat_env) (clock : string) (fuel : nat)
    (table : T) (e : event) : option (api_response * T) :=
  let http_method := httpMethod e in
  if bool_decide (http_method = Some "POST") && endswith (path e) "/admin/correct" then
    let '(r, table') := handle_admin_correction table clock (event_body e) in
    Some (ApiResponse r, table')
  else if bool_decide (http_method = Some "POST") && endswith (path e) "/chat" then
    let '(r, table') := handle_chat_request env table (event_body e) in
    Some (ApiChatResponse r, table')
  else if bool_decide (http_method = Some "GET") && endswith (path e) "/admin/history" then
    match handle_admin_history_request fuel table (param_sessionId e)
            (param_page e) (param_limit e) with
    | Some r => Some (ApiResponse r, table)
    | None => None
    end
  else
    Some (ApiResponse (create_response 400 (Message "Unsupported HTTP method or path.")),
          table).

(** ** The clock *)

Module Clock.

(** [datetime.now(timezone.utc)], by its fields. *)
Record datetime := {
  year : N;
  month : N;
  day : N;
  hour : N;
  minute : N;
  second : N;
  microsecond : N;
}.

Definition digit (n : N) : ascii := ascii_of_N (48 + n mod 10).

(** [n] in decimal, zero-padded to [width] digits (for [n < 10 ^ width]). *)
Fixpoint zero_padded (width : nat) (n : N) : string :=
  match width with
  | O => EmptyString
  | S w => zero_padded w (n / 10) ++ String (digit n) EmptyString
  end.

(** [now_utc.strftime('%Y-%m-%dT%H:%M:%S.%f')], for a year of four digits. *)
Definition strftime (d : datetime) : string :=
  zero_padded 4 (year d) ++ "-" ++ zero_padded 2 (month d) ++ "-" ++
  zero_padded 2 (day d) ++ "T" ++ zero_padded 2 (hour d) ++ ":" ++
  zero_padded 2 (minute d) ++ ":" ++ zero_padded 2 (second d) ++ "." ++
  zero_padded 6 (microsecond d).

(** [s[:-3]]. *)
Definition drop_last_three (s : string) : string :=
  string_of_list_ascii (Py.slice (list_ascii_of_string s) 0 (-3)).

Definition get_utc_timestamp_str (now_utc : datetime) : string :=
  drop_last_three (strftime now_utc) ++ "Z".

(** The text [YYYY-MM-DDTHH:MM:SS.sss], with the milliseconds of [d]. *)
Definition iso_millis (d : datetime) : string :=
  zero_padded 4 (year d) ++ "-" ++ zero_padded 2 (month d) ++ "-" ++
  zero_padded 2 (day d) ++ "T" ++ zero_padded 2 (hour d) ++ ":" ++
  zero_padded 2 (minute d) ++ ":" ++ zero_padded 2 (second d) ++ "." ++
  zero_padded 3 (microsecond d / 1000).

(** The fields are those of a date and time with a four-digit year. *)
Definition well_formed (d : datetime) : Prop :=
  (1000 ≤ year d ≤ 9999 ∧ 1 ≤ month d ≤ 12 ∧ 1 ≤ day d ≤ 31 ∧ hour d ≤ 23 ∧
   minute d ≤ 59 ∧ second d ≤ 59 ∧ microsecond d ≤ 999999)%N.

(** The fields down to the millisecond, as one number that grows with time. *)
Definition millisecond_rank (d : datetime) : N :=
  ((((((year d * 100 + month d) * 100 + day d) * 100 + hour d) * 100 + minute d) * 100
    + second d) * 1000 + microsecond d / 1000)%N.

End Clock.

(** ** Sample chat environments *)

Module Sample3.

(** An agent that echoes the question, and one that fails. *)
Definition echo_env : chat_env :=
  {| agent := λ q, inr (StrResult ("You asked: " ++ q));
     uuid_session := "generated-session";
     uuid_interaction := "generated-interaction";
     clock_question := "2024-05-01T10:00:00.000Z";
     clock_answer := "2024-05-01T10:00:01.500Z" |}.

Definition failing_env : chat_env :=
  {| agent := λ q, inl (ClientError "ThrottlingException");
     uuid_session := "generated-session";
     uuid_interaction := "generated-interaction";
     clock_question := "2024-05-01T10:00:00.000Z";
     clock_answer := "2024-05-01T10:00:01.500Z" |}.

Definition chat_body_hello : item :=
  <["userQuestion" := "hello"]> (<["sessionId" := "s1"]> ∅).

Definition chat_body_empty : item := <["sessionId" := "s1"]> ∅.

End Sample3.

(** ** Sample events *)

Module Sample4.

Definition delete_chat : event :=
  {| httpMethod := Some "DELETE"; path := "/prod/chat";
     event_body := Some Sample3.chat_body_hello;
     param_sessionId := None; param_page := NotGiven; param_limit := NotGiven |}.

End Sample4.

(** ** Sample clock readings *)

Module Sample5.

(** Two readings within the same second, 250 and 251.9 milliseconds in. *)
Definition reading1 : Clock.datetime :=
  {| Clock.year := 2024; Clock.month := 5; Clock.day := 1; Clock.hour := 10;
     Clock.minute := 0; Clock.second := 9; Clock.microsecond := 250000 |}.

Definition reading2 : Clock.datetime :=
  {| Clock.year := 2024; Clock.month := 5; Clock.day := 1; Clock.hour := 10;
     Clock.minute := 0; Clock.second := 9; Clock.microsecond := 251900 |}.

End Sample5.

(** * Properties *)

Open Scope list_scope.

(** ** The order on strings *)

Section StringOrder.

Lemma ascii_compare_refl (c : ascii) : Ascii.compare c c = Eq.
Proof. unfold Ascii.compare. apply N.compare_refl. Qed.

Lemma ascii_compare_lt_trans (a b c : ascii) :
  Ascii.compare a b = Lt → Ascii.compare b c = Lt → Ascii.compare a c = Lt.
Proof.
  unfold Ascii.compare. rewrite !N.compare_lt_iff. apply N.lt_trans.
Qed.

Lemma string_compare_refl (s : string) : String.compare s s = Eq.
Proof.
  induction s as [|c s IH]; simpl; [done|].
  by rewrite ascii_compare_refl.
Qed.

Lemma leb_refl (s : string) : String.leb s s = true.
Proof. unfold String.leb. by rewrite string_compare_refl. Qed.

Lemma leb_trans (s1 s2 s3 : string) :
  String.leb s1 s2 = true → String.leb s2 s3 = true → String.leb s1 s3 = true.
Proof.
  unfold String.leb. revert s2 s3.
  induction s1 as [|c1 s1 IH]; intros [|c2 s2] [|c3 s3]; simpl; try done.
  destruct (Ascii.compare c1 c2) eqn:E12; [| |done].
  - apply Ascii.compare_eq_iff in E12 as ->.
    destruct (Ascii.compare c2 c3) eqn:E23; [|done..].
    apply IH.
  - destruct (Ascii.compare c2 c3) eqn:E23; [| |done].
    + apply Ascii.compare_eq_iff in E23 as <-. by rewrite E12.
    + by rewrite (ascii_compare_lt_trans _ _ _ E12 E23).
Qed.

Lemma ltb_leb_false (s1 s2 : string) :
  String.ltb s1 s2 = true → String.leb s2 s1 = false.
Proof.
  unfold String.ltb, String.leb. rewrite (String.compare_antisym s1 s2).
  by destruct (String.compare s2 s1).
Qed.

Lemma ltb_false_leb (s1 s2 : string) :
  String.ltb s1 s2 = false → String.leb s2 s1 = true.
Proof.
  unfold String.ltb, String.leb. rewrite (String.compare_antisym s1 s2).
  by destruct (String.compare s2 s1).
Qed.

Lemma ltb_leb (s1 s2 : string) :
  String.ltb s1 s2 = true → String.leb s1 s2 = true.
Proof. unfold String.ltb, String.leb. by destruct (String.compare s1 s2). Qed.

End StringOrder.

(** ** The stable sort *)

Section Sorted.

Context {A K : Type} (le : K → K → bool) (key : A → K).
Hypothesis le_total : ∀ a b, le a b = true ∨ le b a = true.
Hypothesis le_trans : ∀ a b c, le a b = true → le b c = true → le a c = true.

Lemma insert_by_perm (x : A) (l : list A) : Py.insert_by le key x l ≡ₚ x :: l.
Proof.
  induction l as [|y l IH]; simpl; [done|].
  destruct (le (key x) (key y)); [done|].
  rewrite IH. apply Permutation_swap.
Qed.

Lemma sorted_perm (l : list A) : Py.sorted le key l ≡ₚ l.
Proof.
  induction l as [|x l IH]; simpl; [done|].
  by rewrite insert_by_perm, IH.
Qed.

Lemma insert_by_sorted (x : A) (l : list A) :
  StronglySorted (Py.key_le le key) l →
  StronglySorted (Py.key_le le key) (Py.insert_by le key x l).
Proof.
  induction l as [|y l IH]; simpl; intros Hs.
  - repeat constructor.
  - inversion Hs as [|? ? Hs' Hall]; subst.
    destruct (le (key x) (key y)) eqn:Hxy.
    + constructor; [done|]. constructor; [done|].
      eapply Forall_impl; [exact Hall|]. intros z Hz. unfold Py.key_le in *. eauto.
    + constructor; [by apply IH|].
      rewrite insert_by_perm. constructor; [|done].
      destruct (le_total (key x) (key y)); [congruence|done].
Qed.

Lemma sorted_sorted (l : list A) :
  StronglySorted (Py.key_le le key) (Py.sorted le key l).
Proof.
  induction l as [|x l IH]; simpl; [constructor|]. by apply insert_by_sorted.
Qed.

(** Stability: the elements that satisfy any predicate on keys that the
    order cannot tell apart keep their relative order.  It is stated for the
    elements of one key class. *)
Lemma insert_by_filter (P : A → Prop) `{!∀ x, Decision (P x)} (x : A) (l : list A) :
  (∀ y, y ∈ l → P y → P x → le (key x) (key y) = true) →
  filter P (Py.insert_by le key x l) = filter P (x :: l).
Proof.
  induction l as [|y l IH]; simpl; intros Hle; [done|].
  destruct (le (key x) (key y)) eqn:Hxy; [done|].
  rewrite filter_cons. rewrite IH by (intros; apply Hle; [by right|done..]).
  rewrite !filter_cons.
  destruct (decide (P y)) as [Hy|]; [|done].
  destruct (decide (P x)) as [Hx|]; [|done].
  rewrite Hle in Hxy; [done|by left|done..].
Qed.

Lemma sorted_stable (P : A → Prop) `{!∀ x, Decision (P x)} (l : list A) :
  (∀ x y, P x → P y → le (key x) (key y) = true) →
  filter P (Py.sorted le key l) = filter P l.
Proof.
  intros HP. induction l as [|x l IH]; simpl; [done|].
  rewrite insert_by_filter by eauto.
  by rewrite !filter_cons, IH.
Qed.

Lemma sorted_elem_of (x : A) (l : list A) : x ∈ Py.sorted le key l ↔ x ∈ l.
Proof. by rewrite sorted_perm. Qed.

Lemma sorted_length (l : list A) : length (Py.sorted le key l) = length l.
Proof. by rewrite sorted_perm. Qed.

End Sorted.

(** ** Grouping *)

Section Grouping.
Import History HistorySpec.

Lemma max_str_spec (x : string) (xs : list string) :
  Py.max_str x xs ∈ x :: xs ∧
  ∀ y, y ∈ x :: xs → String.leb y (Py.max_str x xs) = true.
Proof.
  unfold Py.max_str. revert x.
  induction xs as [|z xs IH]; intros x; simpl.
  - split; [by left|]. intros y ->%list_elem_of_singleton. apply leb_refl.
  - destruct (String.ltb x z) eqn:Hxz.
    + destruct (IH z) as [Hin Hmax]. split; [by right|].
      intros y [->|Hy]%elem_of_cons; [|by apply Hmax].
      eapply leb_trans; [by apply ltb_leb|]. apply Hmax. by left.
    + destruct (IH x) as [Hin Hmax]. split.
      * apply elem_of_cons in Hin as [->|Hin]; [by left|by do 2 right].
      * intros y [->|[->|Hy]%elem_of_cons]%elem_of_cons.
        -- apply Hmax. by left.
        -- eapply leb_trans; [by apply ltb_false_leb|]. apply Hmax. by left.
        -- apply Hmax. by right.
Qed.

Lemma lookup_group_append (i j : string) (x : item) (g : groups) :
  lookup_group (group_append i x g) j =
  if decide (i = j) then lookup_group g j ++ [x] else lookup_group g j.
Proof.
  induction g as [|[k xs] g IH]; simpl.
  - by repeat case_decide.
  - destruct (decide (k = i)) as [->|Hki]; simpl.
    + by repeat case_decide.
    + rewrite IH. repeat case_decide; congruence.
Qed.

Lemma group_append_keys (i : string) (x : item) (g : groups) :
  (group_append i x g).*1 = if decide (i ∈ g.*1) then g.*1 else g.*1 ++ [i].
Proof.
  induction g as [|[k xs] g IH]; [done|].
  cbn [group_append].
  destruct (decide (k = i)) as [->|Hki]; rewrite !fmap_cons; cbn [fst].
  - rewrite decide_True; [done|by left].
  - rewrite IH. destruct (decide (i ∈ g.*1)) as [Hin|Hin].
    + rewrite decide_True; [done|by right].
    + rewrite decide_False; [done|]. intros [?|?]%elem_of_cons; congruence.
Qed.

Lemma truthy_interaction (x : item) (i : string) :
  Py.truthy (x !! "InteractionId") = true ∧ Py.subscript x "InteractionId" = i ↔
  in_interaction i x.
Proof.
  unfold in_interaction, Py.subscript, Py.truthy.
  destruct (x !! "InteractionId") as [[|c s]|]; simpl; split;
    try (intros [? ?]; by simplify_eq); naive_solver.
Qed.

Lemma group_step_lookup (g : groups) (x : item) (i : string) :
  lookup_group (group_step g x) i =
  lookup_group g i ++ filter (in_interaction i) [x].
Proof.
  unfold group_step. rewrite filter_cons, filter_nil.
  destruct (Py.truthy (x !! "InteractionId")) eqn:Ht.
  - rewrite lookup_group_append.
    destruct (decide (Py.subscript x "InteractionId" = i)) as [He|Hne].
    + rewrite decide_True; [done|]. by apply truthy_interaction.
    + rewrite decide_False; [by rewrite app_nil_r|].
      intros H%truthy_interaction. naive_solver.
  - rewrite decide_False; [by rewrite app_nil_r|].
    intros H%truthy_interaction. destruct H. congruence.
Qed.

(** The value stored under [i] after step 2 is the list of records of
    interaction [i], in fetch order. *)
Lemma group_by_interaction_lookup (all_items : list item) (i : string) :
  lookup_group (group_by_interaction all_items) i = records_of all_items i.
Proof.
  unfold group_by_interaction, records_of.
  induction all_items as [|x l IH] using rev_ind; [done|].
  by rewrite foldl_app, filter_app, <- IH, <- group_step_lookup.
Qed.

Lemma group_step_keys (g : groups) (x : item) :
  NoDup g.*1 → (∀ i, i ∈ g.*1 ↔ lookup_group g i ≠ []) →
  NoDup (group_step g x).*1 ∧
  (∀ i, i ∈ (group_step g x).*1 ↔ lookup_group (group_step g x) i ≠ []).
Proof.
  intros Hnd Hkeys. split.
  - unfold group_step. destruct (Py.truthy _); [|done].
    rewrite group_append_keys. case_decide; [done|].
    apply NoDup_app. split_and!; [done| |apply NoDup_singleton].
    intros j Hj ->%list_elem_of_singleton. done.
  - intros i. unfold group_step. destruct (Py.truthy _); [|apply Hkeys].
    rewrite group_append_keys, lookup_group_append.
    set (k := Py.subscript x "InteractionId").
    destruct (decide (k = i)) as [->|Hne].
    + split; [intros _; by destruct (lookup_group g i)|intros _].
      case_decide; [done|]. apply elem_of_app. right. by left.
    + rewrite <- Hkeys. case_decide; [done|].
      rewrite elem_of_app, list_elem_of_singleton. naive_solver.
Qed.

Lemma group_by_interaction_keys (all_items : list item) :
  NoDup (group_by_interaction all_items).*1 ∧
  ∀ i, i ∈ (group_by_interaction all_items).*1 ↔ records_of all_items i ≠ [].
Proof.
  setoid_rewrite <- group_by_interaction_lookup.
  unfold group_by_interaction.
  induction all_items as [|x l IH] using rev_ind.
  - split; [constructor|]. intros i. simpl. split; [by intros ?%elem_of_nil|done].
  - rewrite foldl_app. simpl. destruct IH. by apply group_step_keys.
Qed.

Lemma sort_groups_keys (g : groups) : (sort_groups g).*1 = g.*1.
Proof. unfold sort_groups. induction g as [|[k xs] g IH]; simpl; [done|]. by f_equal. Qed.

Lemma sort_groups_lookup (g : groups) (i : string) :
  lookup_group (sort_groups g) i = sort_group (lookup_group g i).
Proof.
  induction g as [|[k xs] g IH]; simpl; [done|]. by case_decide.
Qed.

(** The value stored under [i] after step 3. *)
Lemma grouped_interactions_lookup (all_items : list item) (i : string) :
  lookup_group (grouped_interactions all_items) i =
  Py.sorted Py.ascending timestamp (members all_items i).
Proof.
  unfold grouped_interactions.
  by rewrite sort_groups_lookup, group_by_interaction_lookup.
Qed.

Lemma lookup_group_elem (g : groups) (i : string) (xs : list item) :
  NoDup g.*1 → (i, xs) ∈ g → lookup_group g i = xs.
Proof.
  induction g as [|[k ys] g IH]; simpl; intros Hnd Hin; [by apply elem_of_nil in Hin|].
  apply NoDup_cons in Hnd as [Hk Hnd].
  apply elem_of_cons in Hin as [[= -> ->]|Hin].
  - by rewrite decide_True.
  - rewrite decide_False; [by apply IH|].
    intros ->. apply Hk. apply list_elem_of_fmap. by exists (i, xs).
Qed.

End Grouping.

(** ** Ordering of the groups *)

Section Ordering.
Import History HistorySpec.

Lemma descending_total (a b : string) :
  Py.descending a b = true ∨ Py.descending b a = true.
Proof. unfold Py.descending. destruct (String.leb_total a b); auto. Qed.

Lemma descending_trans (a b c : string) :
  Py.descending a b = true → Py.descending b c = true → Py.descending a c = true.
Proof. unfold Py.descending. eauto using leb_trans. Qed.

Lemma ascending_trans (a b c : string) :
  Py.ascending a b = true → Py.ascending b c = true → Py.ascending a c = true.
Proof. unfold Py.ascending. apply leb_trans. Qed.

Lemma sort_keys_sublist (g : groups) : (interaction_id_sort_keys g).*2 `sublist_of` g.*1.
Proof.
  unfold interaction_id_sort_keys.
  induction g as [|[k [|y ys]] g IH]; cbn; [done|by constructor..].
Qed.

Lemma sort_keys_elem (g : groups) (i : string) :
  NoDup g.*1 →
  i ∈ (interaction_id_sort_keys g).*2 ↔ lookup_group g i ≠ [].
Proof.
  unfold interaction_id_sort_keys.
  induction g as [|[k ys] g IH]; intros Hnd.
  - cbn. split; [by intros ?%elem_of_nil|done].
  - rewrite fmap_cons in Hnd. apply NoDup_cons in Hnd as [Hk Hnd].
    cbn [lookup_group]. destruct (decide (k = i)) as [->|Hne].
    + destruct ys as [|y ys]; cbn.
      * split; [|done]. intros Hin. destruct Hk.
        eapply elem_of_sublist; [done|apply sort_keys_sublist].
      * split; [done|]. intros _. by left.
    + rewrite <- (IH Hnd). destruct ys as [|y ys]; cbn; [done|].
      rewrite elem_of_cons. naive_solver.
Qed.

Lemma sort_keys_max (g : groups) (t i : string) :
  NoDup g.*1 → (t, i) ∈ interaction_id_sort_keys g →
  (∃ x, x ∈ lookup_group g i ∧ timestamp x = t) ∧
  ∀ x, x ∈ lookup_group g i → String.leb (timestamp x) t = true.
Proof.
  intros Hnd [[k ys] [Hin Hkey]]%list_elem_of_omap.
  unfold sort_key_of in Hkey. cbn in Hkey.
  destruct ys as [|y ys]; [done|]. injection Hkey as <- <-.
  rewrite (lookup_group_elem _ _ _ Hnd Hin).
  destruct (max_str_spec (timestamp y) (timestamp <$> ys)) as [Hm Hub].
  rewrite <- fmap_cons in Hm, Hub. split.
  - apply list_elem_of_fmap in Hm as (x & Hx & Hin'). eauto.
  - intros x Hx. apply Hub. apply list_elem_of_fmap. eauto.
Qed.

Lemma grouped_interactions_NoDup (all_items : list item) :
  NoDup (grouped_interactions all_items).*1.
Proof.
  unfold grouped_interactions. rewrite sort_groups_keys.
  apply group_by_interaction_keys.
Qed.

Lemma sorted_nil_iff {A K : Type} (le : K → K → bool) (key : A → K) (l : list A) :
  Py.sorted le key l = [] ↔ l = [].
Proof.
  split; [|by intros ->]. intros H.
  apply (f_equal length) in H. rewrite sorted_length in H. by destruct l.
Qed.

(** The sort keys of step 4: one per interaction that has a record with a
    timestamp, each the maximum timestamp of those records. *)
Lemma sort_keys_spec (all_items : list item) :
  let keys := interaction_id_sort_keys (grouped_interactions all_items) in
  NoDup keys.*2 ∧
  (∀ i, i ∈ keys.*2 ↔ members all_items i ≠ []) ∧
  Forall (λ k, is_max_timestamp k.1 (members all_items k.2)) keys.
Proof.
  intros keys. pose proof (grouped_interactions_NoDup all_items) as Hnd.
  split_and!.
  - eapply sublist_NoDup; [done|apply sort_keys_sublist].
  - intros i. unfold keys. rewrite sort_keys_elem by done.
    by rewrite grouped_interactions_lookup, sorted_nil_iff.
  - apply Forall_forall. intros [t i] Hin. cbn.
    destruct (sort_keys_max _ _ _ Hnd Hin) as [(x & Hx & Ht) Hub].
    rewrite grouped_interactions_lookup in Hx, Hub.
    split.
    + exists x. split; [|done]. by apply sorted_elem_of in Hx.
    + intros y Hy. apply Hub. by apply sorted_elem_of.
Qed.

(** Step 5 orders these keys descending and keeps the ids. *)
Lemma ordered_ids_spec (all_items : list item) :
  ∃ keys : list (string * string),
    ordered_ids all_items = keys.*2 ∧
    descending_by_key keys ∧
    Forall (λ k, is_max_timestamp k.1 (members all_items k.2)) keys.
Proof.
  destruct (sort_keys_spec all_items) as (_ & _ & Hmax).
  eexists. split_and!; [reflexivity | |].
  - apply (sorted_sorted Py.descending fst descending_total descending_trans).
  - apply Forall_forall. intros k Hk%sorted_elem_of.
    rewrite Forall_forall in Hmax. by apply Hmax.
Qed.

Lemma ordered_ids_NoDup (all_items : list item) : NoDup (ordered_ids all_items).
Proof.
  destruct (sort_keys_spec all_items) as (Hnd & _ & _).
  unfold ordered_ids, ordered_interaction_ids.
  by rewrite sorted_perm.
Qed.

Lemma ordered_ids_elem (all_items : list item) (i : string) :
  i ∈ ordered_ids all_items ↔ members all_items i ≠ [].
Proof.
  destruct (sort_keys_spec all_items) as (_ & Hel & _).
  unfold ordered_ids, ordered_interaction_ids.
  by rewrite sorted_perm.
Qed.

(** In a list in descending key order, a strictly larger key comes first. *)
Lemma descending_by_key_lookup (keys : list (string * string)) (n m : nat)
    (a b : string * string) :
  descending_by_key keys → keys !! n = Some a → keys !! m = Some b →
  String.ltb b.1 a.1 = true → (n < m)%nat.
Proof.
  intros Hs. revert n m. induction Hs as [|k keys Hs IH Hall]; intros n m Hn Hm Hlt.
  - by rewrite lookup_nil in Hn.
  - destruct n as [|n], m as [|m]; simpl in *.
    + simplify_eq. unfold String.ltb in Hlt. by rewrite string_compare_refl in Hlt.
    + lia.
    + simplify_eq. rewrite Forall_forall in Hall.
      apply list_elem_of_lookup_2 in Hn. apply Hall in Hn.
      apply ltb_leb_false in Hlt. congruence.
    + apply (IH n m) in Hlt; [lia|done..].
Qed.

(** Within a group the records are the timestamped members, ascending. *)
Lemma group_members_sorted (all_items : list item) (i : string) :
  let g := lookup_group (grouped_interactions all_items) i in
  ascending_by_timestamp g ∧ g ≡ₚ members all_items i.
Proof.
  cbn. rewrite grouped_interactions_lookup. split.
  - apply (sorted_sorted Py.ascending timestamp String.leb_total ascending_trans).
  - apply sorted_perm.
Qed.

End Ordering.

(** ** Slices and pages *)

Section Pagination.
Import History HistorySpec.

Lemma slice_run {A : Type} (l : list A) (start stop : Z) :
  ∃ pre post, l = pre ++ Py.slice l start stop ++ post.
Proof.
  unfold Py.slice. cbv zeta.
  set (m := Z.to_nat (Py.slice_index _ start)).
  set (n := Z.to_nat (_ - _)).
  exists (take m l), (drop n (drop m l)).
  by rewrite take_drop, take_drop.
Qed.

Lemma slice_nonneg {A : Type} (l : list A) (start stop : Z) :
  0 ≤ start → start ≤ stop →
  Py.slice l start stop = take (Z.to_nat (stop - start)) (drop (Z.to_nat start) l).
Proof.
  intros Hs Hst. unfold Py.slice, Py.slice_index. cbv zeta.
  rewrite !(proj2 (Z.ltb_ge _ 0)) by lia.
  destruct (decide (start ≤ Z.of_nat (length l))) as [Hle|Hgt].
  - rewrite (Z.min_l start) by lia.
    destruct (decide (stop ≤ Z.of_nat (length l))) as [Hle'|Hgt'].
    + by rewrite (Z.min_l stop) by lia.
    + rewrite (Z.min_r stop) by lia.
      rewrite !take_ge; [done|rewrite length_drop; lia..].
  - rewrite (Z.min_r start), (Z.min_r stop) by lia.
    rewrite !drop_ge by lia. by rewrite !take_nil.
Qed.

Lemma paginated_ids_nonneg (all_items : list item) (page limit : Z) :
  1 ≤ page → 1 ≤ limit →
  paginated_interaction_ids all_items page limit =
  take (Z.to_nat limit) (drop (Z.to_nat ((page - 1) * limit)) (ordered_ids all_items)).
Proof.
  intros Hp Hl. unfold paginated_interaction_ids. cbv zeta.
  rewrite slice_nonneg by nia. do 2 f_equal. lia.
Qed.

Lemma flatten_concat (g : groups) (ids : list string) :
  flatten g ids = concat (map (lookup_group g) ids).
Proof.
  unfold flatten.
  enough (∀ acc, foldl (λ acc i, acc ++ lookup_group g i) acc ids
                 = acc ++ concat (map (lookup_group g) ids)) as H by apply H.
  induction ids as [|i ids IH]; intros acc; simpl.
  - by rewrite app_nil_r.
  - by rewrite IH, app_assoc.
Qed.

Lemma pages_upto_take (all_items : list item) (limit : Z) (n : nat) :
  1 ≤ limit →
  pages_upto all_items limit n = take (n * Z.to_nat limit) (ordered_ids all_items).
Proof.
  intros Hl. unfold pages_upto. induction n as [|n IH]; [done|].
  rewrite seq_S, map_app, concat_app, IH. simpl.
  rewrite app_nil_r, paginated_ids_nonneg by lia.
  replace (Z.to_nat ((Z.of_nat (S n) - 1) * limit)) with (n * Z.to_nat limit)%nat by nia.
  rewrite take_take_drop. f_equal. lia.
Qed.

(** [(n + limit - 1) // limit] is the ceiling of [n / limit]. *)
Lemma ceiling_division (n limit : Z) :
  0 ≤ n → 1 ≤ limit →
  let pages := (n + limit - 1) `div` limit in
  (pages - 1) * limit < n ≤ pages * limit.
Proof.
  intros Hn Hl pages.
  pose proof (Z.div_mod (n + limit - 1) limit ltac:(lia)) as Hdm.
  pose proof (Z.mod_pos_bound (n + limit - 1) limit ltac:(lia)) as Hb.
  fold pages in Hdm. nia.
Qed.

Lemma pages_upto_all (all_items : list item) (limit : Z) :
  1 ≤ limit →
  pages_upto all_items limit
    (Z.to_nat ((Z.of_nat (length (ordered_ids all_items)) + limit - 1) `div` limit))
  = ordered_ids all_items.
Proof.
  intros Hl. rewrite pages_upto_take by done. apply take_ge.
  pose proof (ceiling_division (Z.of_nat (length (ordered_ids all_items))) limit
                ltac:(lia) Hl) as Hc.
  cbv zeta in Hc. nia.
Qed.

Lemma build_page_return (all_items : list item) (page limit : Z) :
  limit ≠ 0 →
  ∃ d, build_page all_items page limit = Return d ∧
    history d = concat (map (lookup_group (grouped_interactions all_items))
                          (paginated_interaction_ids all_items page limit)) ∧
    total_pages (meta d) = (Z.of_nat (length (ordered_ids all_items)) + limit - 1) `div` limit ∧
    total_interaction_groups (meta d) = length (ordered_ids all_items) ∧
    totalInteractionGroups (summary d) = length (ordered_ids all_items) ∧
    totalIndividualLogEntries (summary d) = length all_items ∧
    totalQuestions (summary d) = length (filter (event_type_is "QUESTION") all_items) ∧
    totalAIResponses (summary d) = length (filter (event_type_is "AI_RESPONSE") all_items) ∧
    totalAdminCorrections (summary d) =
      length (filter (event_type_is "ADMIN_CORRECTION") all_items) ∧
    uniqueSessionCount (summary d) = size (session_ids all_items).
Proof.
  intros Hl. unfold build_page. cbv zeta.
  rewrite (proj2 (Z.eqb_neq _ _) Hl).
  eexists. split; [reflexivity|]. cbn. by rewrite flatten_concat.
Qed.

End Pagination.

(** * The history page *)

Import History HistorySpec.

(** C1.  Whenever the handler builds a page ([limit] is not zero), the
    interaction groups are ordered descending by their sort key, the maximum
    timestamp among the timestamp-bearing members of the group, so a group with
    a strictly larger key comes before one with a smaller key; each group lists
    exactly its timestamp-bearing members, ascending by timestamp; the page
    holds a run of consecutive groups of that order, flattened group by group;
    and for a positive [limit] the pages [1 .. total_pages], one after the
    other, give all groups in that order. *)
Theorem C1_groups_descending_members_ascending
    (all_items : list item) (page limit : Z) :
  limit ≠ 0 →
  ∃ (d : history_data) (keys : list (string * string)) (pre post : list string),
    build_page all_items page limit = Return d ∧
    ordered_ids all_items = keys.*2 ∧
    descending_by_key keys ∧
    Forall (λ k, is_max_timestamp k.1 (members all_items k.2)) keys ∧
    (∀ (n m : nat) (a b : string * string),
        keys !! n = Some a → keys !! m = Some b →
        String.ltb b.1 a.1 = true → (n < m)%nat) ∧
    (∀ i, let g := lookup_group (grouped_interactions all_items) i in
          ascending_by_timestamp g ∧ g ≡ₚ members all_items i ∧ Forall has_timestamp g) ∧
    ordered_ids all_items = pre ++ paginated_interaction_ids all_items page limit ++ post ∧
    history d = concat (map (lookup_group (grouped_interactions all_items))
                          (paginated_interaction_ids all_items page limit)) ∧
    (1 ≤ limit →
       pages_upto all_items limit (Z.to_nat (total_pages (meta d))) = ordered_ids all_items).
Proof.
  intros Hl.
  destruct (build_page_return all_items page limit Hl) as (d & Hd & Hh & Htp & _).
  destruct (ordered_ids_spec all_items) as (keys & Hk & Hs & Hmax).
  destruct (slice_run (ordered_ids all_items) ((page - 1) * limit)
              ((page - 1) * limit + limit)) as (pre & post & Hrun).
  exists d, keys, pre, post. split_and!; try done.
  - intros n m a b. by apply descending_by_key_lookup.
  - intros i g. destruct (group_members_sorted all_items i) as [Hasc Hperm].
    split_and!; [done..|]. subst g. rewrite Hperm.
    apply Forall_forall. by intros x [? _]%list_elem_of_filter.
  - intros Hpos. rewrite Htp. by apply pages_upto_all.
Qed.

(** The sample log: three groups with keys [..09] > [..06] > [..02], two per
    page. *)
Lemma C1_groups_descending_members_ascending_witness :
  ∃ d, build_page Sample.log 1 2 = Return d ∧
       ordered_ids Sample.log = ["i1"; "i2"; "i3"] ∧
       pages_upto Sample.log 2 (Z.to_nat (total_pages (meta d))) = ordered_ids Sample.log.
Proof.
  destruct (C1_groups_descending_members_ascending Sample.log 1 2 ltac:(lia))
    as (d & keys & pre & post & Hd & _ & _ & _ & _ & _ & _ & _ & Hpages).
  exists d. split_and!; [exact Hd | reflexivity | apply Hpages; lia].
Defined.

(** C2.  For [page ≥ 1] and [limit ≥ 1] pagination works on the ordered list
    of groups: [total_pages] is the ceiling of the number of groups over
    [limit]; the page holds the groups at positions [(page-1)*limit] up to
    [page*limit], as far as there are groups, and the history is these groups
    flattened; a page past the last is empty and is still a normal result.
    With 25 groups and [limit = 10] there are 3 pages, page 3 has 5 groups and
    page 4 none. *)
Theorem C2_pagination_over_groups (all_items : list item) (page limit : Z) :
  1 ≤ page → 1 ≤ limit →
  ∃ d : history_data,
    build_page all_items page limit = Return d ∧
    let groups := ordered_ids all_items in
    let ids := paginated_interaction_ids all_items page limit in
    let n := Z.of_nat (length groups) in
    total_interaction_groups (meta d) = length groups ∧
    (total_pages (meta d) - 1) * limit < n ≤ total_pages (meta d) * limit ∧
    ids = take (Z.to_nat limit) (drop (Z.to_nat ((page - 1) * limit)) groups) ∧
    (∀ j : nat, (j < Z.to_nat limit)%nat →
        ids !! j = groups !! (Z.to_nat ((page - 1) * limit) + j)%nat) ∧
    history d = concat (map (lookup_group (grouped_interactions all_items)) ids) ∧
    (total_pages (meta d) < page → ids = [] ∧ history d = []) ∧
    (n = 25 → limit = 10 →
       total_pages (meta d) = 3 ∧
       (page = 3 → length ids = 5%nat) ∧
       (page = 4 → ids = [] ∧ history d = [])).
Proof.
  intros Hp Hl.
  destruct (build_page_return all_items page limit ltac:(lia))
    as (d & Hd & Hh & Htp & Htg & _).
  exists d. split; [done|]. intros groups ids n.
  pose proof (ceiling_division n limit ltac:(lia) Hl) as Hceil. cbv zeta in Hceil.
  assert (Hids : ids = take (Z.to_nat limit)
                         (drop (Z.to_nat ((page - 1) * limit)) groups))
    by (by apply paginated_ids_nonneg).
  assert (Hbeyond : total_pages (meta d) < page → ids = [] ∧ history d = []).
  { intros Hlt. assert (ids = []) as Hnil.
    { rewrite Hids, drop_ge; [by rewrite take_nil|]. rewrite Htp in Hlt. fold groups n in Hlt. nia. }
    split; [done|]. rewrite Hh. fold ids. by rewrite Hnil. }
  split; [done|]. split; [by rewrite Htp|]. split; [done|].
  split; [|split; [done|split; [done|]]].
  - intros j Hj. rewrite Hids, lookup_take_lt, lookup_drop by done. done.
  - intros Hn ->. assert (total_pages (meta d) = 3) as Htp3.
    { rewrite Htp. fold groups n. by rewrite Hn. }
    split_and!; [done| |].
    + intros ->. rewrite Hids, length_take, length_drop. lia.
    + intros ->. apply Hbeyond. lia.
Qed.

(** Twenty-five one-question interactions, ten per page, third page. *)
Lemma C2_pagination_over_groups_witness :
  ∃ d, build_page (Sample.questions 25) 3 10 = Return d ∧
       total_pages (meta d) = 3 ∧
       length (paginated_interaction_ids (Sample.questions 25) 3 10) = 5%nat.
Proof.
  destruct (C2_pagination_over_groups (Sample.questions 25) 3 10 ltac:(lia) ltac:(lia))
    as (d & Hd & _ & _ & _ & _ & _ & _ & H25).
  destruct (H25 ltac:(reflexivity) ltac:(reflexivity)) as (Htp & H3 & _).
  exists d. split_and!; [exact Hd | exact Htp | exact (H3 eq_refl)].
Defined.

(** ** Counts *)

Section Counts.

Lemma count_insert (et : string) (before after : list item) (r : item) :
  length (filter (event_type_is et) (before ++ r :: after)) =
  (length (filter (event_type_is et) (before ++ after)) + counts_as et r)%nat.
Proof.
  unfold counts_as. rewrite !filter_app, filter_cons, !length_app.
  destruct (decide (event_type_is et r)); simpl; lia.
Qed.

Lemma session_ids_app (l1 l2 : list item) :
  session_ids (l1 ++ l2) = session_ids l1 ∪ session_ids l2.
Proof. unfold session_ids. by rewrite omap_app, list_to_set_app_L. Qed.

Lemma session_ids_cons (r : item) (l : list item) :
  session_ids (r :: l) = session_of r ∪ session_ids l.
Proof.
  unfold session_ids, session_of. cbn [omap list_omap].
  destruct (Py.truthy (r !! "SessionId")) eqn:Ht.
  - unfold Py.subscript. destruct (r !! "SessionId") as [s|]; [|done].
    cbn. set_solver.
  - set_solver.
Qed.

Lemma session_ids_insert (before after : list item) (r : item) :
  session_ids (before ++ r :: after) = session_ids (before ++ after) ∪ session_of r.
Proof. rewrite !session_ids_app, session_ids_cons. set_solver. Qed.

Lemma session_ids_perm (l1 l2 : list item) : l1 ≡ₚ l2 → session_ids l1 = session_ids l2.
Proof. intros Hp. unfold session_ids. apply set_eq. intros s. by rewrite !elem_of_list_to_set, Hp. Qed.

Lemma session_ids_split (P : item → Prop) `{!∀ x, Decision (P x)} (l : list item) :
  session_ids l = session_ids (filter (λ x, ¬ P x) l) ∪ session_ids (filter P l).
Proof.
  induction l as [|x l IH]; [set_solver|].
  rewrite !filter_cons, session_ids_cons, IH.
  destruct (decide (P x)), (decide (¬ P x)); try tauto;
    rewrite session_ids_cons; set_solver.
Qed.

Lemma count_split (P Q : item → Prop) `{!∀ x, Decision (P x)} `{!∀ x, Decision (Q x)}
    (l : list item) :
  length (filter Q l) =
  (length (filter Q (filter (λ x, ¬ P x) l)) + length (filter Q (filter P l)))%nat.
Proof.
  induction l as [|x l IH]; [done|].
  rewrite !filter_cons.
  destruct (decide (P x)), (decide (¬ P x)); try tauto;
    rewrite !filter_cons; destruct (decide (Q x)); simpl; lia.
Qed.

(** Every record of a group carries a timestamp and the group's id. *)
Lemma group_member (all_items : list item) (i : string) (x : item) :
  x ∈ lookup_group (grouped_interactions all_items) i →
  has_timestamp x ∧ in_interaction i x ∧ x ∈ all_items.
Proof.
  rewrite grouped_interactions_lookup, sorted_elem_of.
  unfold members, records_of. rewrite !list_elem_of_filter. tauto.
Qed.

Lemma history_member (all_items : list item) (ids : list string) (x : item) :
  x ∈ concat (map (lookup_group (grouped_interactions all_items)) ids) →
  ∃ i, i ∈ ids ∧ x ∈ lookup_group (grouped_interactions all_items) i.
Proof.
  intros Hx. apply list_elem_of_In, in_concat in Hx as (l & Hl & Hx).
  apply in_map_iff in Hl as (i & <- & Hi).
  exists i. by rewrite !list_elem_of_In.
Qed.

Lemma in_interaction_truthy (i : string) (x : item) :
  in_interaction i x → Py.truthy (x !! "InteractionId") = true.
Proof. intros [Hne ->]. by destruct i. Qed.

End Counts.

(** C3.  The five aggregate counts are taken over the whole fetched list, each
    by its own criterion and whatever the order of the records.  A record that
    lacks a timestamp or an interaction id is counted like any other: it adds
    one to the number of log entries, one to the count of its event type, and
    its session to the set of sessions; yet it is in no group and not in the
    history of any page. *)
Theorem C3_counts_cover_all_fetched_records
    (before after : list item) (r : item) (page limit : Z) :
  limit ≠ 0 →
  ¬ has_timestamp r ∨ Py.truthy (r !! "InteractionId") = false →
  let all_items := before ++ r :: after in
  ∃ d d0 : history_data,
    build_page all_items page limit = Return d ∧
    build_page (before ++ after) page limit = Return d0 ∧
    counts (summary d) =
      (length all_items,
       length (filter (event_type_is "QUESTION") all_items),
       length (filter (event_type_is "AI_RESPONSE") all_items),
       length (filter (event_type_is "ADMIN_CORRECTION") all_items),
       size (session_ids all_items)) ∧
    (∀ reordered d', reordered ≡ₚ all_items →
        build_page reordered page limit = Return d' →
        counts (summary d') = counts (summary d)) ∧
    totalIndividualLogEntries (summary d) = S (totalIndividualLogEntries (summary d0)) ∧
    totalQuestions (summary d) = (totalQuestions (summary d0) + counts_as "QUESTION" r)%nat ∧
    totalAIResponses (summary d) =
      (totalAIResponses (summary d0) + counts_as "AI_RESPONSE" r)%nat ∧
    totalAdminCorrections (summary d) =
      (totalAdminCorrections (summary d0) + counts_as "ADMIN_CORRECTION" r)%nat ∧
    session_ids all_items = session_ids (before ++ after) ∪ session_of r ∧
    (∀ i, r ∉ lookup_group (grouped_interactions all_items) i) ∧
    (r ∉ history d).
Proof.
  intros Hl Hr all_items.
  destruct (build_page_return all_items page limit Hl)
    as (d & Hd & Hh & _ & _ & _ & Hn & Hq & Ha & Hc & Hs).
  destruct (build_page_return (before ++ after) page limit Hl)
    as (d0 & Hd0 & _ & _ & _ & _ & Hn0 & Hq0 & Ha0 & Hc0 & Hs0).
  assert (Hgroup : ∀ i, r ∉ lookup_group (grouped_interactions all_items) i).
  { intros i (Hts & Hin & _)%group_member.
    destruct Hr as [Hr|Hr]; [done|]. apply in_interaction_truthy in Hin. congruence. }
  exists d, d0. split_and!; try done.
  - unfold counts. by rewrite Hn, Hq, Ha, Hc, Hs.
  - intros reordered d' Hperm Hd'.
    destruct (build_page_return reordered page limit Hl)
      as (d'' & Hd'' & _ & _ & _ & _ & Hn' & Hq' & Ha' & Hc' & Hs').
    rewrite Hd' in Hd''. injection Hd'' as <-.
    unfold counts. rewrite Hn, Hq, Ha, Hc, Hs, Hn', Hq', Ha', Hc', Hs'.
    by rewrite (session_ids_perm _ _ Hperm), Hperm.
  - rewrite Hn, Hn0. unfold all_items. rewrite !length_app. simpl. lia.
  - rewrite Hq, Hq0. apply count_insert.
  - rewrite Ha, Ha0. apply count_insert.
  - rewrite Hc, Hc0. apply count_insert.
  - apply session_ids_insert.
  - rewrite Hh. intros (i & _ & Hi)%history_member. by apply (Hgroup i).
Qed.

(** In the sample log the record without a timestamp is a question of
    session [s3]: it is counted, and shown on no page. *)
Lemma C3_counts_cover_all_fetched_records_witness :
  ∃ d, build_page Sample.log 1 2 = Return d ∧
       counts (summary d) = (8, 4, 3, 1, 4)%nat ∧
       (Sample.no_timestamp ∉ history d).
Proof.
  destruct (C3_counts_cover_all_fetched_records
              (take 6 Sample.log) (drop 7 Sample.log) Sample.no_timestamp 1 2
              ltac:(lia) ltac:(left; vm_compute; intros [? [=]]))
    as (d & d0 & Hd & _ & Hcounts & _ & _ & _ & _ & _ & _ & _ & Hout).
  exists d. split_and!; [exact Hd | exact Hcounts | exact Hout].
Defined.

(** ** Removing the records of one interaction *)

Section RemoveInteraction.

Variable i : string.

Local Abbreviation other_key := (other_key i).

Lemma group_append_other (j : string) (x : item) (g : groups) :
  j ≠ i →
  filter other_key (group_append j x g) = group_append j x (filter other_key g).
Proof.
  intros Hj. induction g as [|[k xs] g IH]; cbn [group_append].
  - rewrite filter_nil, filter_cons, decide_True by done. done.
  - destruct (decide (k = j)) as [->|Hkj].
    + rewrite !filter_cons, !decide_True by done. cbn [group_append].
      by rewrite decide_True.
    + rewrite !filter_cons, IH. destruct (decide (other_key (k, xs))); [|done].
      cbn [group_append]. by rewrite decide_False.
Qed.

Lemma group_append_same (x : item) (g : groups) :
  filter other_key (group_append i x g) = filter other_key g.
Proof.
  induction g as [|[k xs] g IH]; cbn [group_append].
  - rewrite filter_cons, decide_False; [done|]. unfold other_key. cbn. tauto.
  - destruct (decide (k = i)) as [->|Hki].
    + rewrite !filter_cons, !decide_False; [done|unfold other_key; cbn; tauto..].
    + by rewrite !filter_cons, IH.
Qed.

Lemma group_step_remove (g : groups) (x : item) :
  filter other_key (group_step g x) =
  if decide (in_interaction i x) then filter other_key g
  else group_step (filter other_key g) x.
Proof.
  unfold group_step.
  destruct (Py.truthy (x !! "InteractionId")) eqn:Ht.
  - destruct (decide (Py.subscript x "InteractionId" = i)) as [He|Hne].
    + rewrite decide_True by (by apply truthy_interaction).
      rewrite He. apply group_append_same.
    + rewrite decide_False; [by apply group_append_other|].
      intros Hin%truthy_interaction. tauto.
  - rewrite decide_False; [done|].
    intros Hin%in_interaction_truthy. congruence.
Qed.

Lemma group_by_interaction_remove (all_items : list item) :
  group_by_interaction (filter (λ x, ¬ in_interaction i x) all_items) =
  filter other_key (group_by_interaction all_items).
Proof.
  unfold group_by_interaction.
  induction all_items as [|x l IH] using rev_ind; [done|].
  rewrite filter_app, !foldl_app. cbn [foldl].
  rewrite group_step_remove, filter_cons, filter_nil.
  destruct (decide (in_interaction i x)) as [Hin|Hout].
  - rewrite decide_False by tauto. cbn [foldl]. apply IH.
  - rewrite decide_True by done. cbn [foldl]. by rewrite IH.
Qed.

Lemma sort_groups_filter (g : groups) :
  sort_groups (filter other_key g) = filter other_key (sort_groups g).
Proof.
  unfold sort_groups. induction g as [|[k xs] g IH]; [done|].
  cbn [map]. rewrite !filter_cons.
  destruct (decide (other_key (k, xs))) as [Hk|Hk].
  - rewrite decide_True by done. cbn [map]. by rewrite IH.
  - rewrite decide_False by done. done.
Qed.

Lemma sort_keys_filter (g : groups) :
  (∀ xs, (i, xs) ∈ g → xs = []) →
  interaction_id_sort_keys (filter other_key g) = interaction_id_sort_keys g.
Proof.
  unfold interaction_id_sort_keys.
  induction g as [|[k xs] g IH]; intros Hempty; [done|].
  rewrite filter_cons. cbn [omap list_omap].
  assert (Htail : ∀ ys, (i, ys) ∈ g → ys = []) by (intros ? ?; apply Hempty; by right).
  destruct (decide (other_key (k, xs))) as [Hk|Hk].
  - cbn [omap list_omap]. by rewrite IH.
  - rewrite IH by done.
    assert (k = i) as -> by (unfold other_key in Hk; cbn in Hk; by destruct (decide (k = i))).
    rewrite (Hempty xs) by (by left). done.
Qed.

(** A group none of whose records has a timestamp can be removed from the
    fetched list without changing the ordered ids or any group. *)
Lemma ordered_ids_remove (all_items : list item) :
  members all_items i = [] →
  ordered_ids (filter (λ x, ¬ in_interaction i x) all_items) = ordered_ids all_items.
Proof.
  intros Hm. unfold ordered_ids, ordered_interaction_ids, grouped_interactions.
  rewrite group_by_interaction_remove, sort_groups_filter, sort_keys_filter; [done|].
  intros xs Hin.
  apply lookup_group_elem in Hin; [|apply grouped_interactions_NoDup].
  rewrite <- Hin. fold (grouped_interactions all_items).
  by rewrite grouped_interactions_lookup, Hm.
Qed.

Lemma filter_none {A : Type} (P : A → Prop) `{!∀ x, Decision (P x)} (l : list A) :
  (∀ x, x ∈ l → ¬ P x) → filter P l = [].
Proof.
  induction l as [|x l IH]; intros Hnone; [done|].
  rewrite filter_cons_False by (apply Hnone; by left).
  apply IH. intros y Hy. apply Hnone. by right.
Qed.

Lemma members_remove (all_items : list item) (j : string) :
  members all_items i = [] →
  members (filter (λ x, ¬ in_interaction i x) all_items) j = members all_items j.
Proof.
  intros Hm. destruct (decide (j = i)) as [->|Hne].
  - rewrite Hm. unfold members, records_of.
    rewrite list_filter_filter, filter_none; [done|].
    by intros x [Hout _]%list_elem_of_filter [_ Hin].
  - unfold members, records_of. f_equal.
    rewrite list_filter_filter. apply list_filter_iff.
    intros x. unfold in_interaction. naive_solver.
Qed.

Lemma grouped_lookup_remove (all_items : list item) (j : string) :
  members all_items i = [] →
  lookup_group (grouped_interactions (filter (λ x, ¬ in_interaction i x) all_items)) j =
  lookup_group (grouped_interactions all_items) j.
Proof. intros Hm. by rewrite !grouped_interactions_lookup, members_remove. Qed.

End RemoveInteraction.

Lemma length_split (P : item → Prop) `{!∀ x, Decision (P x)} (l : list item) :
  length l = (length (filter (λ x, ¬ P x) l) + length (filter P l))%nat.
Proof.
  induction l as [|x l IH]; [done|].
  rewrite !filter_cons.
  destruct (decide (P x)), (decide (¬ P x)); try tauto; simpl; lia.
Qed.

Lemma paginated_ids_subseteq (all_items : list item) (page limit : Z) :
  paginated_interaction_ids all_items page limit ⊆ ordered_ids all_items.
Proof.
  unfold paginated_interaction_ids. cbv zeta.
  destruct (slice_run (ordered_ids all_items) ((page - 1) * limit)
              ((page - 1) * limit + limit)) as (pre & post & Hrun).
  intros j Hj. rewrite Hrun. set_solver.
Qed.

(** C10.  An interaction none of whose records carries a [Timestamp] is not
    among the ordered groups, so it is on no page, and the response is built
    as if its records had not been fetched: same history, same number of
    interaction groups (the number of interactions that do have a timestamped
    record), same number of pages.  Its records are still counted in the
    summary: the number of log entries, the counts by event type and the set
    of sessions all include them. *)
Theorem C10_group_without_timestamps_left_out
    (all_items : list item) (i : string) (page limit : Z) :
  limit ≠ 0 →
  members all_items i = [] →
  let rest := filter (λ x, ¬ in_interaction i x) all_items in
  ∃ d d' : history_data,
    build_page all_items page limit = Return d ∧
    build_page rest page limit = Return d' ∧
    (i ∉ ordered_ids all_items) ∧
    (i ∉ paginated_interaction_ids all_items page limit) ∧
    (∀ x, x ∈ history d → ¬ in_interaction i x) ∧
    NoDup (ordered_ids all_items) ∧
    (∀ j, j ∈ ordered_ids all_items ↔ members all_items j ≠ []) ∧
    total_interaction_groups (meta d) = length (ordered_ids all_items) ∧
    history d = history d' ∧
    total_interaction_groups (meta d) = total_interaction_groups (meta d') ∧
    totalInteractionGroups (summary d) = totalInteractionGroups (summary d') ∧
    total_pages (meta d) = total_pages (meta d') ∧
    let group := records_of all_items i in
    totalIndividualLogEntries (summary d) =
      (totalIndividualLogEntries (summary d') + length group)%nat ∧
    totalQuestions (summary d) =
      (totalQuestions (summary d') + length (filter (event_type_is "QUESTION") group))%nat ∧
    totalAIResponses (summary d) =
      (totalAIResponses (summary d') + length (filter (event_type_is "AI_RESPONSE") group))%nat ∧
    totalAdminCorrections (summary d) =
      (totalAdminCorrections (summary d')
       + length (filter (event_type_is "ADMIN_CORRECTION") group))%nat ∧
    session_ids all_items = session_ids rest ∪ session_ids group.
Proof.
  intros Hl Hm rest.
  destruct (build_page_return all_items page limit Hl)
    as (d & Hd & Hh & Htp & Htg & Hsg & Hn & Hq & Ha & Hc & Hs).
  destruct (build_page_return rest page limit Hl)
    as (d' & Hd' & Hh' & Htp' & Htg' & Hsg' & Hn' & Hq' & Ha' & Hc' & Hs').
  pose proof (ordered_ids_remove i all_items Hm) as Hids. fold rest in Hids.
  assert (Hout : i ∉ ordered_ids all_items) by (rewrite ordered_ids_elem; intros Hne; apply Hne, Hm).
  assert (Hpage : i ∉ paginated_interaction_ids all_items page limit)
    by (intros Hin%paginated_ids_subseteq; done).
  exists d, d'. split_and!; try done.
  - intros x. rewrite Hh. intros (j & Hj & Hx)%history_member.
    apply group_member in Hx as (_ & [_ Hxj] & _). intros [_ Hxi].
    assert (j = i) as -> by congruence. done.
  - apply ordered_ids_NoDup.
  - apply ordered_ids_elem.
  - rewrite Hh, Hh'. unfold paginated_interaction_ids. cbv zeta. rewrite Hids.
    f_equal. apply map_ext. intros j. symmetry. by apply grouped_lookup_remove.
  - by rewrite Htg, Htg', Hids.
  - by rewrite Hsg, Hsg', Hids.
  - by rewrite Htp, Htp', Hids.
  - intros group. split_and!.
    + rewrite Hn, Hn'. apply (length_split (in_interaction i)).
    + rewrite Hq, Hq'. apply (count_split (in_interaction i)).
    + rewrite Ha, Ha'. apply (count_split (in_interaction i)).
    + rewrite Hc, Hc'. apply (count_split (in_interaction i)).
    + apply (session_ids_split (in_interaction i)).
Qed.

(** In the sample log interaction [i4] has one record, without a timestamp:
    three groups are reported, and eight log entries. *)
Lemma C10_group_without_timestamps_left_out_witness :
  ∃ d, build_page Sample.log 1 2 = Return d ∧
       ("i4" ∉ ordered_ids Sample.log) ∧
       total_interaction_groups (meta d) = 3%nat ∧
       totalIndividualLogEntries (summary d) = 8%nat.
Proof.
  destruct (C10_group_without_timestamps_left_out Sample.log "i4" 1 2
              ltac:(lia) ltac:(reflexivity))
    as (d & d' & Hd & _ & Hout & _ & _ & _ & _ & Htg & _).
  exists d. split_and!; [exact Hd | exact Hout | exact Htg |].
  unfold build_page in Hd. cbv zeta in Hd. cbn [Z.eqb] in Hd.
  injection Hd as <-. reflexivity.
Defined.

(** * The Log Store read *)

Section Fetch.
Context `{Table T}.

Lemma fetch_loop_chain (table : T) (event_type : string)
    (session_id_filter : option string) (k : option item) (pages : list (list item)) :
  page_chain table event_type session_id_filter k pages →
  ∀ (acc : list item) (fuel : nat),
    ((length pages ≤ fuel)%nat →
     fetch_loop fuel table event_type session_id_filter acc k
     = Return (acc ++ concat pages)) ∧
    ((fuel < length pages)%nat →
     fetch_loop fuel table event_type session_id_filter acc k = OutOfFuel).
Proof.
  induction 1 as [k r Hq Hlast|k r pages Hq Hmore Hchain IH]; intros acc fuel.
  - split; intros Hfuel; simpl in Hfuel.
    + destruct fuel as [|fuel]; [clear -Hfuel; lia|]. cbn [fetch_loop].
      rewrite Hq, Hlast. cbn. by rewrite app_nil_r.
    + by replace fuel with 0%nat by (clear -Hfuel; lia).
  - split; intros Hfuel; simpl in Hfuel.
    + destruct fuel as [|fuel]; [clear -Hfuel; lia|]. cbn [fetch_loop].
      rewrite Hq, Hmore. cbn [negb].
      destruct (IH (acc ++ items_of r) fuel) as [Hret _].
      rewrite Hret by (clear -Hfuel; lia).
      cbn [concat]. by rewrite app_assoc.
    + destruct fuel as [|fuel]; [done|]. cbn [fetch_loop].
      rewrite Hq, Hmore. cbn [negb].
      destruct (IH (acc ++ items_of r) fuel) as [_ Hout].
      apply Hout. clear -Hfuel. lia.
Qed.

End Fetch.

(** C9.  When the table's continuation chain for an event type and session
    filter is finite, with result pages [pages], the read terminates: given
    as many loop iterations as there are pages (or more) it returns the
    concatenation of all the pages, and with fewer it is still running, so it
    asks for every page up to the one without a continuation key. *)
Theorem C9_fetch_all_pages `{Table T} (table : T) (event_type : string)
    (session_id_filter : option string) (pages : list (list item)) :
  page_chain table event_type session_id_filter None pages →
  ∀ fuel : nat,
    ((length pages ≤ fuel)%nat →
     fetch_all_items_for_event_type fuel table event_type session_id_filter
     = Return (concat pages)) ∧
    ((fuel < length pages)%nat →
     fetch_all_items_for_event_type fuel table event_type session_id_filter = OutOfFuel).
Proof.
  intros Hchain fuel. unfold fetch_all_items_for_event_type.
  apply (fetch_loop_chain _ _ _ _ _ Hchain [] fuel).
Qed.

(** The table with one row per page returns its three questions in three
    pages, newest first; the read needs three iterations. *)
Lemma C9_fetch_all_pages_witness :
  fetch_all_items_for_event_type 3 Sample.paged_table "QUESTION" None
  = Return [ Sample.record "QUESTION" "s2" "i3" "2024-05-01T10:00:04.000Z" "q3";
             Sample.record "QUESTION" "s1" "i2" "2024-05-01T10:00:02.000Z" "q2";
             Sample.record "QUESTION" "s1" "i1" "2024-05-01T10:00:01.000Z" "q1" ] ∧
  fetch_all_items_for_event_type 2 Sample.paged_table "QUESTION" None = OutOfFuel.
Proof.
  set (r1 := MemTable.mem_query Sample.paged_table (history_query "QUESTION" None None)).
  set (r2 := MemTable.mem_query Sample.paged_table
               (history_query "QUESTION" None (LastEvaluatedKey r1))).
  set (r3 := MemTable.mem_query Sample.paged_table
               (history_query "QUESTION" None (LastEvaluatedKey r2))).
  assert (Hchain : page_chain Sample.paged_table "QUESTION" None None
                     [items_of r1; items_of r2; items_of r3]).
  { apply (chain_more _ _ _ None r1); [reflexivity | vm_compute; reflexivity |].
    apply (chain_more _ _ _ (LastEvaluatedKey r1) r2);
      [reflexivity | vm_compute; reflexivity |].
    apply (chain_last _ _ _ (LastEvaluatedKey r2) r3);
      [reflexivity | vm_compute; reflexivity]. }
  destruct (C9_fetch_all_pages _ _ _ _ Hchain 3%nat) as [Hret _].
  destruct (C9_fetch_all_pages _ _ _ _ Hchain 2%nat) as [_ Hout].
  split.
  - rewrite Hret by (simpl; lia). vm_compute. reflexivity.
  - apply Hout. simpl. lia.
Defined.

(** * Correction intake *)

Lemma missing_fields_reject (b : item) :
  missing_fields b ≠ [] →
  forallb (λ f, Py.truthy (b !! f)) required_fields = false.
Proof.
  intros Hmiss. apply not_true_is_false. intros Hall.
  apply Hmiss. unfold missing_fields. apply filter_none.
  intros f Hf Hfalse. rewrite forallb_forall in Hall.
  apply list_elem_of_In in Hf. apply Hall in Hf. congruence.
Qed.

(** C8, as the code has it.  A correction request that leaves out a required
    field (the field is absent, or empty) is answered with status 400 and the
    fixed message below, and the table is returned as it was: [put_item] is
    not reached.  The message is the same whichever fields are missing. *)
Theorem C8_missing_field_rejected_before_store `{Table T} (table : T)
    (timestamp_str : string) (b : item) (f : string) :
  f ∈ required_fields →
  b !! f = None ∨ b !! f = Some "" →
  missing_fields b ≠ [] ∧
  handle_admin_correction table timestamp_str (Some b) =
    (create_response 400 (Message "Missing required fields for admin correction."), table).
Proof.
  intros Hf Hb.
  assert (Hmiss : missing_fields b ≠ []).
  { intros Hnil. assert (f ∈ missing_fields b) as Hin.
    { unfold missing_fields. apply list_elem_of_filter. split; [|done].
      by destruct Hb as [-> | ->]. }
    rewrite Hnil in Hin. by apply elem_of_nil in Hin. }
  split; [done|]. unfold handle_admin_correction.
  by rewrite (missing_fields_reject b Hmiss).
Qed.

(** A request without [sessionId], sent to a table that holds one row. *)
Lemma C8_missing_field_rejected_before_store_witness :
  handle_admin_correction
    {| MemTable.page_size := 10; MemTable.rows := [Sample.no_timestamp] |}
    "2024-05-01T10:00:10.000Z" (Some Sample.body_without_session) =
  (create_response 400 (Message "Missing required fields for admin correction."),
   {| MemTable.page_size := 10; MemTable.rows := [Sample.no_timestamp] |}).
Proof.
  apply (C8_missing_field_rejected_before_store _ _ Sample.body_without_session "sessionId").
  - by left.
  - left. reflexivity.
Defined.

(** C8 as stated fails: the responses to a request without [sessionId] and to
    one without [interactionId] are the same, so no list of the missing
    fields can be read off the response. *)
Lemma C8_missing_fields_not_listed :
  missing_fields Sample.body_without_session = ["sessionId"] ∧
  missing_fields Sample.body_without_interaction = ["interactionId"] ∧
  (handle_admin_correction (MemTable.empty 10) "2024-05-01T10:00:10.000Z"
     (Some Sample.body_without_session)).1 =
  (handle_admin_correction (MemTable.empty 10) "2024-05-01T10:00:10.000Z"
     (Some Sample.body_without_interaction)).1 ∧
  ¬ names_missing_fields (MemTable.empty 10) "2024-05-01T10:00:10.000Z".
Proof.
  assert (H1 : missing_fields Sample.body_without_session = ["sessionId"])
    by (vm_compute; reflexivity).
  assert (H2 : missing_fields Sample.body_without_interaction = ["interactionId"])
    by (vm_compute; reflexivity).
  split_and!; [done | done | reflexivity |].
  intros [decode Hdecode].
  pose proof (Hdecode Sample.body_without_session) as Hs.
  pose proof (Hdecode Sample.body_without_interaction) as Hi.
  rewrite H1 in Hs. rewrite H2 in Hi.
  specialize (Hs ltac:(done)). specialize (Hi ltac:(done)).
  change ((handle_admin_correction (MemTable.empty 10) "2024-05-01T10:00:10.000Z"
             (Some Sample.body_without_interaction)).1)
    with ((handle_admin_correction (MemTable.empty 10) "2024-05-01T10:00:10.000Z"
             (Some Sample.body_without_session)).1) in Hi.
  congruence.
Qed.

(** * Correction matching *)

Section Matcher.

Lemma filter_all_true {A : Type} (P : A → Prop) `{!∀ x, Decision (P x)} (l : list A) :
  (∀ x, P x) → filter P l = l.
Proof.
  intros Hall. induction l as [|x l IH]; [done|].
  by rewrite filter_cons_True, IH.
Qed.

Lemma collect_relevant_take (user_query : string) (admin_corrections : list item)
    (acc : list string) :
  (length acc < 3)%nat →
  collect_relevant user_query admin_corrections acc =
  acc ++ (format_correction <$>
            take (3 - length acc) (relevant_candidates user_query admin_corrections)).
Proof.
  unfold relevant_candidates. revert acc.
  induction admin_corrections as [|c l IH]; intros acc Hacc; cbn [collect_relevant].
  - by rewrite filter_nil, take_nil, app_nil_r.
  - rewrite filter_cons. destruct (is_relevant user_query c) eqn:Hrel.
    + rewrite decide_True by done.
      destruct (3 <=? length (acc ++ [format_correction c]))%nat eqn:Hfull.
      * apply Nat.leb_le in Hfull. rewrite length_app in Hfull. simpl in Hfull.
        replace (3 - length acc)%nat with 1%nat by lia. done.
      * apply Nat.leb_gt in Hfull. rewrite IH by done.
        rewrite length_app in *. simpl in *.
        replace (3 - length acc)%nat with (S (3 - (length acc + 1)))%nat by lia.
        cbn [take fmap list_fmap]. by rewrite <- app_assoc.
    + rewrite decide_False by (by intros [=]). by apply IH.
Qed.

Lemma relevant_corrections_take (user_query : string) (r : query_response) :
  relevant_corrections_of user_query r =
  format_correction <$> take 3 (relevant_candidates user_query (items_of r)).
Proof.
  unfold relevant_corrections_of. rewrite collect_relevant_take by (simpl; lia). done.
Qed.

(** What the in-memory table answers to the matcher's query: the newest
    corrections, twenty at most. *)
Lemma mem_corrections_query (t : MemTable.mem_table) :
  (20 ≤ MemTable.page_size t)%nat →
  items_of (MemTable.mem_query t corrections_query) =
  take 20 (Py.sorted Py.descending timestamp
             (filter (MemTable.in_index "ADMIN_CORRECTION") (MemTable.rows t))).
Proof.
  intros Hsize. unfold items_of, MemTable.mem_query. cbv zeta.
  cbn [Items default Limit ExclusiveStartKey corrections_query].
  rewrite Nat.min_l by done. unfold MemTable.index_scan.
  cbn [ScanIndexForward EventTypeValue corrections_query].
  by apply filter_all_true.
Qed.

End Matcher.

(** C6.  The matcher asks the table for [ADMIN_CORRECTION] records, newest
    first, twenty at most (on the in-memory table: the twenty newest), and
    returns the relevant ones among the records it gets, in the order it got
    them, cut after the third.  When none is relevant the list is empty and
    the result is the plain no-match message, not an error message. *)
Theorem C6_at_most_three_in_fetch_order `{Table T} (table : T) (user_query : string)
    (r : query_response) :
  query table corrections_query = inr r →
  let relevant := relevant_candidates user_query (items_of r) in
  let found := relevant_corrections_of user_query r in
  EventTypeValue corrections_query = "ADMIN_CORRECTION" ∧
  ScanIndexForward corrections_query = false ∧
  Limit corrections_query = Some 20%nat ∧
  (∀ t : MemTable.mem_table, (20 ≤ MemTable.page_size t)%nat →
     items_of (MemTable.mem_query t corrections_query) =
     take 20 (Py.sorted Py.descending timestamp
                (filter (MemTable.in_index "ADMIN_CORRECTION") (MemTable.rows t)))) ∧
  found = format_correction <$> take 3 relevant ∧
  (length found ≤ 3)%nat ∧
  (relevant ≠ [] →
     get_relevant_admin_corrections table user_query =
     ("Relevant past administrative corrections:" ++ nl ++
      Py.join (nl ++ "---" ++ nl) found)%string) ∧
  (relevant = [] →
     found = [] ∧
     get_relevant_admin_corrections table user_query =
     "No relevant administrative corrections found.").
Proof.
  intros Hq relevant found.
  assert (Hfound : found = format_correction <$> take 3 relevant)
    by apply relevant_corrections_take.
  split_and!; try done.
  - apply mem_corrections_query.
  - rewrite Hfound, length_fmap, length_take. lia.
  - intros Hne. unfold get_relevant_admin_corrections. rewrite Hq. cbv zeta.
    fold found. rewrite Hfound. by destruct relevant.
  - intros Hnil. split; [by rewrite Hfound, Hnil|].
    unfold get_relevant_admin_corrections. rewrite Hq. cbv zeta.
    fold found. by rewrite Hfound, Hnil.
Qed.

(** Five corrections, four of them about mileage: the three newest of these
    are returned, newest first. *)
Lemma C6_at_most_three_in_fetch_order_witness :
  relevant_corrections_of "Is MILEAGE limited?"
    (MemTable.mem_query Sample.corrections_table corrections_query) =
  [ format_correction
      (Sample.correction "i5" "2024-05-02T09:00:05.000Z" "weekly rate" "100"
         "mileage is free, 90 weekly");
    format_correction
      (Sample.correction "i4" "2024-05-02T09:00:04.000Z" "is mileage tracked" "no"
         "yes, by GPS");
    format_correction
      (Sample.correction "i3" "2024-05-02T09:00:02.000Z" "Mileage cap?" "yes" "no cap") ].
Proof.
  destruct (@C6_at_most_three_in_fetch_order _ MemTable.mem_table_Table
              Sample.corrections_table "Is MILEAGE limited?"
              (MemTable.mem_query Sample.corrections_table corrections_query)
              ltac:(reflexivity))
    as (_ & _ & _ & _ & Hfound & _).
  rewrite Hfound. vm_compute. reflexivity.
Defined.

(** C7.  When the read of the corrections fails, the matcher does not raise:
    it returns a message that says so and carries the error of the backend.
    No successful read gives that result, so the caller can tell the failure
    from a normal answer, and goes on without corrections. *)
Theorem C7_read_failure_reported `{Table T} (table : T) (user_query msg : string) :
  query table corrections_query = inl (ClientError msg) →
  get_relevant_admin_corrections table user_query =
    ("An error occurred while retrieving admin corrections: " ++ msg)%string ∧
  ∀ (T' : Type) (Table' : Table T') (table' : T') (user_query' : string)
    (r : query_response),
    query table' corrections_query = inr r →
    get_relevant_admin_corrections table' user_query' ≠
    get_relevant_admin_corrections table user_query.
Proof.
  intros Hq. unfold get_relevant_admin_corrections at 1. rewrite Hq.
  split; [done|]. intros T' Table' table' user_query' r Hr.
  unfold get_relevant_admin_corrections. rewrite Hq, Hr. cbv zeta.
  by destruct (relevant_corrections_of user_query' r).
Qed.

(** A table whose reads fail with the error [timeout]. *)
Lemma C7_read_failure_reported_witness :
  get_relevant_admin_corrections {| FailingTable.error_message := "timeout" |}
    "does mileage have limits" =
  "An error occurred while retrieving admin corrections: timeout".
Proof.
  apply (@C7_read_failure_reported _ FailingTable.failing_table_Table
           {| FailingTable.error_message := "timeout" |}
           "does mileage have limits" "timeout" ltac:(reflexivity)).
Defined.

(** ** The tokenizer *)

Section Tokenizer.

Lemma append_nil_l (s : string) : ("" ++ s)%string = s.
Proof. reflexivity. Qed.

Lemma append_cons (c : ascii) (s t : string) :
  (String c s ++ t)%string = String c (s ++ t)%string.
Proof. reflexivity. Qed.

Lemma append_nil_r (s : string) : (s ++ "")%string = s.
Proof. induction s as [|c s IH]; [done|]. by rewrite append_cons, IH. Qed.

Lemma append_assoc (s t u : string) : ((s ++ t) ++ u)%string = (s ++ t ++ u)%string.
Proof. induction s as [|c s IH]; [done|]. by rewrite !append_cons, IH. Qed.

Lemma all_word_app (s t : string) :
  all_word (s ++ t) = all_word s && all_word t.
Proof.
  induction s as [|c s IH]; [done|].
  rewrite append_cons. cbn [all_word]. rewrite IH. by destruct (Py.is_word c).
Qed.

Lemma all_word_starts_outside (s : string) :
  all_word s = true → starts_outside_word s = true → s = "".
Proof. destruct s as [|c s]; [done|]. cbn. by destruct (Py.is_word c). Qed.

Lemma all_word_ends_outside (s : string) :
  all_word s = true → ends_outside_word s = true → s = "".
Proof.
  induction s as [|c s IH]; [done|]. cbn [all_word ends_outside_word].
  intros [Hc Hs]%andb_true_iff Hend. destruct s as [|c' s].
  - rewrite Hc in Hend. done.
  - specialize (IH Hs Hend). done.
Qed.

Lemma ends_outside_app_cons (s : string) (c : ascii) (t : string) :
  ends_outside_word (s ++ String c t) = ends_outside_word (String c t).
Proof.
  induction s as [|a s IH]; [done|].
  rewrite append_cons. cbn [ends_outside_word].
  destruct (s ++ String c t)%string eqn:Hs; [destruct s; inversion Hs|exact IH].
Qed.

Lemma ends_outside_after (c : ascii) (t : string) :
  Py.is_word c = false → ends_outside_word t = true →
  ends_outside_word (String c t) = true.
Proof. intros Hc Ht. cbn [ends_outside_word]. destruct t; [by rewrite Hc|done]. Qed.

Lemma ends_outside_tail (c : ascii) (t : string) :
  Py.is_word c = true → ends_outside_word (String c t) = true →
  t ≠ "" ∧ ends_outside_word t = true.
Proof.
  intros Hc. cbn [ends_outside_word]. destruct t; [by rewrite Hc|done].
Qed.

(** Two runs of word characters, each followed by a character outside [\w]
    or by the end, that start the same text are the same run. *)
Lemma word_prefix_unique (u v p q : string) :
  all_word u = true → all_word v = true →
  starts_outside_word p = true → starts_outside_word q = true →
  (u ++ p)%string = (v ++ q)%string → u = v ∧ p = q.
Proof.
  revert v. induction u as [|a u IH]; intros [|b v] Hu Hv Hp Hq Heq.
  - done.
  - rewrite append_nil_l, append_cons in Heq. subst p.
    cbn in Hv, Hp. by destruct (Py.is_word b).
  - rewrite append_nil_l, append_cons in Heq. subst q.
    cbn in Hu, Hq. by destruct (Py.is_word a).
  - rewrite !append_cons in Heq. injection Heq as -> Heq.
    cbn [all_word] in Hu, Hv.
    apply andb_true_iff in Hu as [_ Hu]. apply andb_true_iff in Hv as [_ Hv].
    destruct (IH v Hu Hv Hp Hq Heq) as [-> ->]. done.
Qed.

(** Where a word can sit in a text that starts with the run [cur] followed by
    the character [c] outside [\w]: it is [cur], or it lies after [c]. *)
Lemma word_after_run (cur : string) (c : ascii) (s pre k post : string) :
  all_word cur = true → Py.is_word c = false →
  k ≠ "" → all_word k = true →
  ends_outside_word pre = true → starts_outside_word post = true →
  (cur ++ String c s)%string = (pre ++ k ++ post)%string →
  (pre = "" ∧ k = cur) ∨
  ∃ pre', pre = (cur ++ String c pre')%string ∧ s = (pre' ++ k ++ post)%string ∧
          ends_outside_word pre' = true.
Proof.
  intros Hcur Hc Hk Hword. revert pre.
  induction cur as [|a cur IH]; intros pre Hpre Hpost Heq.
  - rewrite append_nil_l in Heq. destruct pre as [|p pre].
    + rewrite append_nil_l in Heq. destruct k as [|b k]; [done|].
      rewrite append_cons in Heq. injection Heq as <- _.
      cbn in Hword. by rewrite Hc in Hword.
    + rewrite append_cons in Heq. injection Heq as <- ->.
      right. exists pre. split_and!; [done..|].
      cbn [ends_outside_word] in Hpre. destruct pre; [done|done].
  - cbn [all_word] in Hcur. apply andb_true_iff in Hcur as [Ha Hcur].
    rewrite append_cons in Heq. destruct pre as [|p pre].
    + left. split; [done|]. rewrite append_nil_l in Heq.
      rewrite <- (append_cons a cur) in Heq.
      destruct (word_prefix_unique (String a cur) k (String c s) post) as [<- _];
        try done.
      * cbn. by rewrite Ha, Hcur.
      * cbn. by rewrite Hc.
    + rewrite append_cons in Heq. injection Heq as <- Heq.
      apply ends_outside_tail in Hpre as [Hne Hpre]; [|done].
      destruct (IH Hcur pre Hpre Hpost Heq) as [[-> _]|(pre' & -> & -> & Hpre')]; [done|].
      right. exists pre'. by rewrite append_cons.
Qed.

Lemma close_word_elem (k cur : string) : k ∈ Py.close_word cur ↔ cur ≠ "" ∧ k = cur.
Proof.
  destruct cur as [|c cur]; cbn.
  - split; [by intros ?%elem_of_nil|by intros [? _]].
  - rewrite list_elem_of_singleton. naive_solver.
Qed.

(** The scanner started with the run [cur] finds the words of [cur ++ s]. *)
Lemma scan_words_spec (s cur k : string) :
  all_word cur = true →
  k ∈ Py.scan_words cur s ↔ occurs_as_word k (cur ++ s).
Proof.
  revert cur. induction s as [|c s IH]; intros cur Hcur.
  - cbn [Py.scan_words]. rewrite close_word_elem, append_nil_r. split.
    + intros [Hne ->]. split_and!; [done..|].
      exists "", "". by rewrite append_nil_l, append_nil_r.
    + intros (Hk & Hword & pre & post & -> & Hpre & Hpost).
      rewrite !all_word_app in Hcur.
      apply andb_true_iff in Hcur as [Hp [_ Hq]%andb_true_iff].
      rewrite (all_word_ends_outside pre), (all_word_starts_outside post) by done.
      by rewrite append_nil_l, append_nil_r.
  - cbn [Py.scan_words]. destruct (Py.is_word c) eqn:Hc.
    + rewrite IH, append_assoc; [done|].
      rewrite all_word_app, Hcur. cbn. by rewrite Hc.
    + rewrite elem_of_app, close_word_elem, (IH ""), append_nil_l by done. split.
      * intros [[Hne ->]|(Hk & Hword & pre & post & -> & Hpre & Hpost)].
        -- split_and!; [done..|]. exists "", (String c s).
           rewrite append_nil_l. split_and!; [done..|]. cbn. by rewrite Hc.
        -- split_and!; [done..|]. exists (cur ++ String c pre)%string, post.
           split_and!; [|rewrite ends_outside_app_cons; by apply ends_outside_after|done].
           by rewrite append_assoc, append_cons.
      * intros (Hk & Hword & pre & post & Heq & Hpre & Hpost).
        destruct (word_after_run cur c s pre k post) as [[-> ->]|(pre' & -> & -> & Hpre')];
          try done.
        -- left. done.
        -- right. split_and!; [done..|]. by exists pre', post.
Qed.

(** [re.findall(r'\b\w+\b', text)] lists the words of [text]. *)
Lemma findall_words_spec (text k : string) :
  k ∈ Py.findall_words text ↔ occurs_as_word k text.
Proof. unfold Py.findall_words. by rewrite scan_words_spec. Qed.




End Tokenizer.

Lemma is_relevant_iff (user_query : string) (correction : item) :
  is_relevant user_query correction = true ↔
  ∃ keyword, keyword ∈ Py.findall_words (Py.lower user_query) ∧
             (2 < String.length keyword)%nat ∧
             keyword ∈ Py.findall_words (correction_text correction).
Proof.
  unfold is_relevant, query_keywords, correction_keywords, set_Exists.
  rewrite bool_decide_eq_true.
  setoid_rewrite elem_of_list_to_set. naive_solver.
Qed.



(** * Round trip through the in-memory table *)

Section RoundTrip.

Lemma last_char_app (s : string) (c d : ascii) (t : string) :
  last_char (s ++ String c t) d = last_char t c.
Proof. revert d. induction s as [|a s IH]; intros d; [done|]. rewrite append_cons. apply IH. Qed.

Lemma sort_keys_differ (tq ta : string) :
  (tq ++ "#QUESTION")%string ≠ (ta ++ "#AI_RESPONSE")%string.
Proof.
  intros Heq. apply (f_equal (λ s, last_char s "x"%char)) in Heq.
  rewrite !last_char_app in Heq. cbn in Heq. discriminate Heq.
Qed.

Lemma NoDup_only (l : list string) (i : string) :
  NoDup l → (∀ j, j ∈ l ↔ j = i) → l = [i].
Proof.
  intros Hnd Hel. destruct l as [|x [|y l]].
  - exfalso. eapply elem_of_nil. by apply (Hel i).
  - f_equal. apply Hel. by left.
  - exfalso. apply NoDup_cons in Hnd as [Hx _]. apply Hx.
    assert (x = i) as -> by (apply Hel; by left).
    assert (y = i) as -> by (apply Hel; right; by left). by left.
Qed.

(** The page built from an answer and its question, fetched in that order. *)
Lemma round_trip_page (q a : item) (i tq ta : string) :
  i ≠ "" →
  q !! "InteractionId" = Some i → a !! "InteractionId" = Some i →
  q !! "Timestamp" = Some tq → a !! "Timestamp" = Some ta →
  String.ltb tq ta = true →
  ∃ d, build_page [a; q] 1 10 = Return d ∧
       history d = [q; a] ∧
       paginated_interaction_ids [a; q] 1 10 = [i] ∧
       total_interaction_groups (meta d) = 1%nat ∧
       total_pages (meta d) = 1.
Proof.
  intros Hi Hqi Hai Hqt Hat Hlt.
  assert (Hts : ∀ x, x ∈ [a; q] → has_timestamp x).
  { intros x [->|[->|[]%elem_of_nil]%elem_of_cons]%elem_of_cons;
      unfold has_timestamp; by rewrite ?Hat, ?Hqt. }
  assert (Hmem : ∀ j, members [a; q] j = if decide (j = i) then [a; q] else []).
  { intros j. unfold members, records_of. destruct (decide (j = i)) as [->|Hne].
    - rewrite (filter_cons_True _ a), (filter_cons_True _ q), filter_nil by done.
      by rewrite !filter_cons_True, filter_nil by (apply Hts; set_solver).
    - rewrite !filter_cons_False, filter_nil; [done|intros [_ ?]; congruence..]. }
  assert (Hids : ordered_ids [a; q] = [i]).
  { apply NoDup_only; [apply ordered_ids_NoDup|].
    intros j. rewrite ordered_ids_elem, Hmem. by destruct (decide (j = i)). }
  assert (Hgroup : lookup_group (grouped_interactions [a; q]) i = [q; a]).
  { rewrite grouped_interactions_lookup, Hmem, decide_True by done.
    cbn [Py.sorted Py.insert_by]. unfold timestamp, Py.subscript, Py.ascending.
    rewrite Hat, Hqt. cbn [default from_option id]. by rewrite (ltb_leb_false _ _ Hlt). }
  assert (Hpage : paginated_interaction_ids [a; q] 1 10 = [i]).
  { unfold paginated_interaction_ids. cbv zeta. by rewrite Hids. }
  destruct (build_page_return [a; q] 1 10 ltac:(done))
    as (d & Hd & Hh & Htp & Htg & _).
  exists d. split_and!; [done| | done | |].
  - rewrite Hh, Hpage. cbn [map concat]. by rewrite Hgroup, app_nil_r.
  - by rewrite Htg, Hids.
  - by rewrite Htp, Hids.
Qed.

End RoundTrip.

Section RoundTripTable.
Import MemTable.

Lemma question_item_fields (session_id user_question interaction_id tq : string) :
  let q := question_item session_id user_question interaction_id tq in
  q !! "SessionId" = Some session_id ∧
  q !! "InteractionId" = Some interaction_id ∧
  q !! "Timestamp" = Some tq ∧
  q !! "EventType" = Some "QUESTION" ∧
  q !! "Timestamp_EventType" = Some (tq ++ "#QUESTION")%string.
Proof. cbv zeta. unfold question_item. by simplify_map_eq. Qed.

Lemma ai_response_item_fields (session_id ai_response user_question interaction_id ta : string) :
  let a := ai_response_item session_id ai_response user_question interaction_id ta in
  a !! "SessionId" = Some session_id ∧
  a !! "InteractionId" = Some interaction_id ∧
  a !! "Timestamp" = Some ta ∧
  a !! "EventType" = Some "AI_RESPONSE" ∧
  a !! "Timestamp_EventType" = Some (ta ++ "#AI_RESPONSE")%string.
Proof. cbv zeta. unfold ai_response_item. by simplify_map_eq. Qed.

(** A read that fits in one result page of the in-memory table. *)
Lemma mem_fetch_one_page (t : mem_table) (fuel : nat) (event_type : string)
    (session_id_filter : option string) :
  let kw := history_query event_type session_id_filter None in
  (length (index_scan kw (rows t)) ≤ page_size t)%nat →
  fetch_all_items_for_event_type (S fuel) t event_type session_id_filter =
  Return (filter (passes_filter kw) (index_scan kw (rows t))).
Proof.
  intros kw Hfit. unfold fetch_all_items_for_event_type. cbn [fetch_loop query mem_table_Table].
  fold kw. unfold mem_query. cbv zeta.
  change (ExclusiveStartKey kw) with (@None item). change (Limit kw) with (@None nat).
  cbv iota. rewrite take_ge by done.
  rewrite (proj2 (Nat.ltb_ge _ _) Hfit). done.
Qed.

End RoundTripTable.

Section RoundTripFetch.
Import MemTable.

Lemma index_scan_pair (q a : item) (event_type : string) (session_id_filter : option string) :
  q !! "EventType" = Some "QUESTION" → a !! "EventType" = Some "AI_RESPONSE" →
  is_Some (q !! "Timestamp") → is_Some (a !! "Timestamp") →
  index_scan (history_query event_type session_id_filter None) [q; a] =
  if decide (event_type = "QUESTION") then [q]
  else if decide (event_type = "AI_RESPONSE") then [a] else [].
Proof.
  intros Hq Ha Hqt Hat. unfold index_scan.
  cbn [ScanIndexForward EventTypeValue history_query].
  destruct (decide (event_type = "QUESTION")) as [->|Hnq].
  - rewrite filter_cons_True by done.
    rewrite filter_cons_False by (intros [? _]; congruence). done.
  - rewrite filter_cons_False by (intros [? _]; congruence).
    destruct (decide (event_type = "AI_RESPONSE")) as [->|Hna].
    + by rewrite filter_cons_True by done.
    + by rewrite filter_cons_False by (intros [? _]; congruence).
Qed.

Lemma fetch_pair (n fuel : nat) (q a : item) (event_type : string) :
  (1 ≤ n)%nat →
  q !! "EventType" = Some "QUESTION" → a !! "EventType" = Some "AI_RESPONSE" →
  is_Some (q !! "Timestamp") → is_Some (a !! "Timestamp") →
  fetch_all_items_for_event_type (S fuel) {| page_size := n; rows := [q; a] |} event_type None =
  Return (if decide (event_type = "QUESTION") then [q]
          else if decide (event_type = "AI_RESPONSE") then [a] else []).
Proof.
  intros Hn Hq Ha Hqt Hat.
  rewrite mem_fetch_one_page; cbn [rows page_size]; rewrite index_scan_pair by done.
  - by rewrite filter_all_true.
  - repeat case_decide; simpl; lia.
Qed.

End RoundTripFetch.

(** C4.  Starting from an empty table, log a question and then its answer
    under one non-empty interaction id, the answer with the later timestamp.
    The history request without session filter, page 1, ten per page, then
    answers 200 with exactly one interaction group, and its history is the
    question followed by the answer. *)
Theorem C4_question_answer_round_trip (n fuel : nat)
    (session_id interaction_id question answer tq ta : string) :
  (1 ≤ n)%nat →
  interaction_id ≠ "" →
  String.ltb tq ta = true →
  let q := question_item session_id question interaction_id tq in
  let a := ai_response_item session_id answer question interaction_id ta in
  ∃ (t1 t2 : MemTable.mem_table) (d : history_data),
    _log_user_question (MemTable.empty n) tq session_id question interaction_id = Return t1 ∧
    _log_ai_response t1 ta session_id answer question interaction_id = Return t2 ∧
    MemTable.rows t2 = [q; a] ∧
    handle_admin_history_request (S fuel) t2 None (IntText 1) (IntText 10) =
      Some (create_response 200 (HistoryPage d)) ∧
    total_interaction_groups (meta d) = 1%nat ∧
    total_pages (meta d) = 1 ∧
    history d = [q; a].
Proof.
  intros Hn Hi Hlt q a.
  destruct (question_item_fields session_id question interaction_id tq)
    as (Hqs & Hqi & Hqt & Hqe & Hqk).
  destruct (ai_response_item_fields session_id answer question interaction_id ta)
    as (Has & Hai & Hat & Hae & Hak).
  fold q in Hqs, Hqi, Hqt, Hqe, Hqk. fold a in Has, Hai, Hat, Hae, Hak.
  destruct (round_trip_page q a interaction_id tq ta Hi Hqi Hai Hqt Hat Hlt)
    as (d & Hd & Hh & _ & Htg & Htp).
  exists {| MemTable.page_size := n; MemTable.rows := [q] |},
         {| MemTable.page_size := n; MemTable.rows := [q; a] |}, d.
  split_and!; try done.
  - unfold _log_ai_response. cbn [put_item MemTable.mem_table_Table].
    fold a. cbn [MemTable.rows MemTable.page_size MemTable.put_row].
    rewrite decide_False; [done|].
    unfold MemTable.primary_key. rewrite Hqk, Hak. intros Hkey.
    injection Hkey as Hkey. by apply sort_keys_differ in Hkey.
  - unfold handle_admin_history_request, History.fetch_all.
    rewrite !(fetch_pair n fuel q a) by (rewrite ?Hqt, ?Hat; eauto).
    cbn [bind]. repeat case_decide; try done.
    cbn [app int_param bind]. by rewrite Hd.
Qed.

(** A greeting and its answer, one second apart. *)
Lemma C4_question_answer_round_trip_witness :
  ∃ t d,
    MemTable.rows t =
      [ question_item "s1" "hello" "i1" "2024-05-01T10:00:00.000Z";
        ai_response_item "s1" "hi, how can I help?" "hello" "i1" "2024-05-01T10:00:01.000Z" ] ∧
    handle_admin_history_request 1 t None (IntText 1) (IntText 10) =
      Some (create_response 200 (HistoryPage d)) ∧
    history d = MemTable.rows t.
Proof.
  destruct (C4_question_answer_round_trip 5 0 "s1" "i1" "hello" "hi, how can I help?"
              "2024-05-01T10:00:00.000Z" "2024-05-01T10:00:01.000Z"
              ltac:(lia) ltac:(discriminate) ltac:(reflexivity))
    as (t1 & t2 & d & _ & _ & Hrows & Hresp & _ & _ & Hh).
  exists t2, d. split_and!; [exact Hrows | exact Hresp | by rewrite Hrows].
Defined.

(** * Further properties of the read path *)

Section FetchFailure.
Context `{Table T}.

Lemma fetch_loop_failing (table : T) (event_type : string)
    (session_id_filter : option string) (k : option item) (n : nat) (e : exn) :
  failing_chain table event_type session_id_filter k n e →
  ∀ (acc : list item) (fuel : nat),
    ((n < fuel)%nat →
     fetch_loop fuel table event_type session_id_filter acc k = Raise e) ∧
    ((fuel ≤ n)%nat →
     fetch_loop fuel table event_type session_id_filter acc k = OutOfFuel).
Proof.
  induction 1 as [k e Hq|k r n e Hq Hmore Hchain IH]; intros acc fuel.
  - split; intros Hfuel.
    + destruct fuel as [|fuel]; [clear -Hfuel; lia|]. cbn [fetch_loop]. by rewrite Hq.
    + by replace fuel with 0%nat by (clear -Hfuel; lia).
  - split; intros Hfuel.
    + destruct fuel as [|fuel]; [clear -Hfuel; lia|]. cbn [fetch_loop].
      rewrite Hq, Hmore. cbn [negb].
      destruct (IH (acc ++ items_of r) fuel) as [Hraise _].
      apply Hraise. clear -Hfuel. lia.
    + destruct fuel as [|fuel]; [done|]. cbn [fetch_loop].
      rewrite Hq, Hmore. cbn [negb].
      destruct (IH (acc ++ items_of r) fuel) as [_ Hout].
      apply Hout. clear -Hfuel. lia.
Qed.

End FetchFailure.

(** X1.  When a request of the read raises after [n] result pages, the read
    raises the same exception as soon as it has run [n + 1] iterations: the
    pages already received are not returned. *)
Theorem X1_fetch_failure_raises `{Table T} (table : T) (event_type : string)
    (session_id_filter : option string) (n : nat) (e : exn) :
  failing_chain table event_type session_id_filter None n e →
  ∀ fuel : nat,
    ((n < fuel)%nat →
     fetch_all_items_for_event_type fuel table event_type session_id_filter = Raise e) ∧
    ((fuel ≤ n)%nat →
     fetch_all_items_for_event_type fuel table event_type session_id_filter = OutOfFuel).
Proof.
  intros Hchain fuel. unfold fetch_all_items_for_event_type.
  apply (fetch_loop_failing _ _ _ _ _ _ Hchain [] fuel).
Qed.

Lemma flaky_corrections_chain :
  failing_chain Sample2.flaky "ADMIN_CORRECTION" None None 1
    (ClientError "ProvisionedThroughputExceededException").
Proof.
  set (r1 := MemTable.mem_query (FlakyTable.inner Sample2.flaky)
               (history_query "ADMIN_CORRECTION" None None)).
  apply (fail_later _ _ _ None r1); [reflexivity | vm_compute; reflexivity |].
  apply fail_now. vm_compute. reflexivity.
Qed.

(** The corrections of the flaky table: the second request fails. *)
Lemma X1_fetch_failure_raises_witness :
  fetch_all_items_for_event_type 2 Sample2.flaky "ADMIN_CORRECTION" None =
  Raise (ClientError "ProvisionedThroughputExceededException").
Proof.
  destruct (X1_fetch_failure_raises _ _ _ _ _ flaky_corrections_chain 2%nat) as [Hraise _].
  apply Hraise. lia.
Defined.

(** X2.  When the reads of the answers and of the questions succeed and the
    read of the corrections fails with a [ClientError], the history request is
    answered with status 500 and the database-error message, whatever the page
    and the limit: nothing of what was fetched is returned. *)
Theorem X2_history_read_failure_is_500 `{Table T} (table : T)
    (session_id_filter : option string) (page limit : Z)
    (answers questions : list (list item)) (n fuel : nat) (msg : string) :
  page_chain table "AI_RESPONSE" session_id_filter None answers →
  page_chain table "QUESTION" session_id_filter None questions →
  failing_chain table "ADMIN_CORRECTION" session_id_filter None n (ClientError msg) →
  (length answers ≤ fuel)%nat → (length questions ≤ fuel)%nat → (n < fuel)%nat →
  handle_admin_history_request fuel table session_id_filter (IntText page) (IntText limit) =
  Some (create_response 500
          (Message "Failed to retrieve history due to database error.")).
Proof.
  intros Ha Hq Hc Hfa Hfq Hfc.
  unfold handle_admin_history_request, History.fetch_all, fetch_all_items_for_event_type.
  cbn [int_param bind].
  destruct (fetch_loop_chain _ _ _ _ _ Ha [] fuel) as [Hra _].
  destruct (fetch_loop_chain _ _ _ _ _ Hq [] fuel) as [Hrq _].
  destruct (fetch_loop_failing _ _ _ _ _ _ Hc [] fuel) as [Hrc _].
  rewrite Hra by done. cbn [bind]. rewrite Hrq by done. cbn [bind].
  by rewrite Hrc by done.
Qed.

(** The flaky table: answers and questions are read, the corrections fail. *)
Lemma X2_history_read_failure_is_500_witness :
  handle_admin_history_request 2 Sample2.flaky None (IntText 1) (IntText 10) =
  Some (create_response 500
          (Message "Failed to retrieve history due to database error.")).
Proof.
  set (ra := MemTable.mem_query (FlakyTable.inner Sample2.flaky)
               (history_query "AI_RESPONSE" None None)).
  set (rq := MemTable.mem_query (FlakyTable.inner Sample2.flaky)
               (history_query "QUESTION" None None)).
  apply (X2_history_read_failure_is_500 Sample2.flaky None 1 10
           [items_of ra] [items_of rq] 1 2 "ProvisionedThroughputExceededException").
  - apply (chain_last _ _ _ None ra); [reflexivity | vm_compute; reflexivity].
  - apply (chain_last _ _ _ None rq); [reflexivity | vm_compute; reflexivity].
  - exact flaky_corrections_chain.
  - simpl; lia.
  - simpl; lia.
  - lia.
Defined.

(** X3.  A [page] or [limit] parameter that is not the text of an integer is
    answered with status 400 before the table is read: the answer is the same
    for every table, also one whose reads fail or never end. *)
Theorem X3_non_integer_parameter_is_400 `{Table T} (fuel : nat) (table : T)
    (session_id_filter : option string) (other : query_param) (page : Z) :
  handle_admin_history_request fuel table session_id_filter OtherText other =
    Some (create_response 400
            (Message "Invalid 'limit' or 'page' query parameter. Must be an integer.")) ∧
  handle_admin_history_request fuel table session_id_filter NotGiven OtherText =
    Some (create_response 400
            (Message "Invalid 'limit' or 'page' query parameter. Must be an integer.")) ∧
  handle_admin_history_request fuel table session_id_filter (IntText page) OtherText =
    Some (create_response 400
            (Message "Invalid 'limit' or 'page' query parameter. Must be an integer.")).
Proof. split_and!; reflexivity. Qed.

(** X4.  A [limit] of zero is not refused as an invalid parameter: the three
    reads are made first; if they succeed the request is answered with status
    500 and the message of the division error. *)
Theorem X4_zero_limit_is_500_after_reads `{Table T} (fuel : nat) (table : T)
    (session_id_filter : option string) (page_param : query_param) (all_items : list item) :
  page_param ≠ OtherText →
  History.fetch_all fuel table session_id_filter = Return all_items →
  handle_admin_history_request fuel table session_id_filter page_param (IntText 0) =
  Some (create_response 500
          (Message ("An unexpected error occurred: " ++ exn_str ZeroDivisionError)%string)).
Proof.
  intros Hp Hfetch. unfold handle_admin_history_request.
  destruct page_param; [| |done]; cbn [int_param bind]; by rewrite Hfetch.
Qed.

(** An empty table: the reads succeed and the division fails. *)
Lemma X4_zero_limit_is_500_after_reads_witness :
  handle_admin_history_request 1 (MemTable.empty 10) None (IntText 1) (IntText 0) =
  Some (create_response 500
          (Message "An unexpected error occurred: integer division or modulo by zero")).
Proof.
  apply (X4_zero_limit_is_500_after_reads 1 (MemTable.empty 10) None (IntText 1) []);
    [discriminate | reflexivity].
Defined.

(** * Further properties of the history page *)

Section WholeGroups.
Import HistoryMore.

Lemma in_interaction_unique (i j : string) (x : item) :
  in_interaction i x → in_interaction j x → i = j.
Proof. intros [_ Hi] [_ Hj]. congruence. Qed.

Lemma concat_map_middle {A B : Type} (f : A → list B) (l1 l2 : list A) (a : A) :
  concat (map f (l1 ++ a :: l2)) = concat (map f l1) ++ f a ++ concat (map f l2).
Proof. by rewrite map_app, concat_app. Qed.

End WholeGroups.

(** X5.  A page never shows part of an interaction: when a record is in the
    history of a page, the history holds, in one piece, all records of its
    interaction that carry a timestamp, ascending by timestamp.  This holds
    for every page number and every non-zero limit. *)
Theorem X5_history_holds_whole_groups (all_items : list item) (page limit : Z)
    (d : history_data) (x : item) (i : string) :
  build_page all_items page limit = Return d →
  x ∈ history d →
  in_interaction i x →
  ∃ pre post : list item,
    history d = pre ++ Py.sorted Py.ascending timestamp (members all_items i) ++ post ∧
    ∀ y, y ∈ members all_items i → y ∈ history d.
Proof.
  intros Hd Hx Hi.
  assert (Hl : limit ≠ 0).
  { intros ->. unfold build_page in Hd. cbv zeta in Hd. by cbn [Z.eqb] in Hd. }
  destruct (build_page_return all_items page limit Hl) as (d' & Hd' & Hh & _).
  rewrite Hd in Hd'. injection Hd' as <-.
  rewrite Hh in Hx. apply history_member in Hx as (j & Hj & Hxj).
  apply group_member in Hxj as (_ & Hij & _).
  assert (j = i) as -> by (by eapply in_interaction_unique).
  apply list_elem_of_split in Hj as (l1 & l2 & Hsplit).
  exists (concat (map (lookup_group (grouped_interactions all_items)) l1)),
         (concat (map (lookup_group (grouped_interactions all_items)) l2)).
  assert (Hwhole : history d =
            concat (map (lookup_group (grouped_interactions all_items)) l1) ++
            Py.sorted Py.ascending timestamp (members all_items i) ++
            concat (map (lookup_group (grouped_interactions all_items)) l2)).
  { by rewrite Hh, Hsplit, concat_map_middle, grouped_interactions_lookup. }
  split; [done|]. intros y Hy. rewrite Hwhole, !elem_of_app. right. left.
  by apply sorted_elem_of.
Qed.

(** Page 1 of the sample log, two groups per page, shows the correction of
    [i1] and with it the answer and the question of [i1]. *)
Lemma X5_history_holds_whole_groups_witness :
  ∃ d, build_page Sample.log 1 2 = Return d ∧
       ∀ y, y ∈ members Sample.log "i1" → y ∈ history d.
Proof.
  destruct (build_page_return Sample.log 1 2 ltac:(lia)) as (d & Hd & Hh & _).
  exists d. split; [exact Hd|].
  assert (Hx : Sample.record "ADMIN_CORRECTION" "s1" "i1" "2024-05-01T10:00:09.000Z" "c1"
               ∈ history d).
  { rewrite Hh. apply (bool_decide_eq_true_1 _). vm_compute. reflexivity. }
  destruct (X5_history_holds_whole_groups Sample.log 1 2 d _ "i1" Hd Hx)
    as (pre & post & _ & Hall).
  - split; [discriminate|reflexivity].
  - exact Hall.
Defined.

Section Conservation.
Import HistoryMore.

Lemma concat_perm {A : Type} (l1 l2 : list (list A)) :
  l1 ≡ₚ l2 → concat l1 ≡ₚ concat l2.
Proof.
  induction 1 as [|x l1 l2 _ IH|x y l|l1 l2 l3 _ IH1 _ IH2]; simpl.
  - done.
  - by rewrite IH.
  - rewrite !app_assoc. f_equiv. apply Permutation_app_comm.
  - by rewrite IH1.
Qed.

Lemma group_append_concat (i : string) (x : item) (g : groups) :
  concat (group_append i x g).*2 ≡ₚ x :: concat g.*2.
Proof.
  induction g as [|[k xs] g IH]; cbn [group_append].
  - done.
  - destruct (decide (k = i)) as [->|Hne]; rewrite !fmap_cons; cbn [snd concat].
    + rewrite <- app_assoc. cbn [app].
      by rewrite <- Permutation_middle.
    + rewrite IH. by rewrite <- Permutation_middle.
Qed.

Lemma group_by_interaction_concat (all_items : list item) :
  concat (group_by_interaction all_items).*2 ≡ₚ
  filter (λ x : item, Py.truthy (x !! "InteractionId") = true) all_items.
Proof.
  unfold group_by_interaction.
  induction all_items as [|x l IH] using rev_ind; [done|].
  rewrite foldl_app, filter_app. cbn [foldl]. unfold group_step at 1.
  rewrite filter_cons, filter_nil.
  destruct (Py.truthy (x !! "InteractionId")) eqn:Ht.
  - rewrite decide_True by done. rewrite group_append_concat, IH.
    by rewrite <- Permutation_cons_append.
  - rewrite decide_False by (by intros [=]). by rewrite app_nil_r.
Qed.

Lemma sort_groups_concat (g : groups) :
  concat (sort_groups g).*2 ≡ₚ filter has_timestamp (concat g.*2).
Proof.
  unfold sort_groups. induction g as [|[k xs] g IH]; [done|].
  cbn [map]. rewrite !fmap_cons. cbn [snd concat].
  rewrite filter_app, IH. f_equiv. unfold sort_group. apply sorted_perm.
Qed.

Lemma lookup_group_not_key (g : groups) (i : string) :
  i ∉ g.*1 → lookup_group g i = [].
Proof.
  induction g as [|[k xs] g IH]; [done|]. rewrite fmap_cons.
  intros Hi. cbn [lookup_group].
  rewrite decide_False by (intros ->; apply Hi; by left).
  apply IH. intros Hin. apply Hi. by right.
Qed.

Lemma lookup_group_head (k : string) (xs : list item) (g : groups) :
  lookup_group ((k, xs) :: g) k = xs.
Proof. cbn [lookup_group]. by rewrite decide_True. Qed.

Lemma lookup_group_skip (k : string) (xs : list item) (g : groups) (ids : list string) :
  k ∉ ids →
  map (lookup_group ((k, xs) :: g)) ids = map (lookup_group g) ids.
Proof.
  intros Hk. apply map_ext_in. intros j Hj%list_elem_of_In. cbn [lookup_group].
  rewrite decide_False; [done|]. by intros ->.
Qed.

Lemma sort_keys_groups_concat (g : groups) :
  NoDup g.*1 →
  concat (map (lookup_group g) (interaction_id_sort_keys g).*2) = concat g.*2.
Proof.
  induction g as [|[k ys] g IH]; [done|].
  rewrite !fmap_cons. intros [Hk Hnd]%NoDup_cons. cbn [fst snd concat].
  assert (Hskip : k ∉ (interaction_id_sort_keys g).*2).
  { intros Hin. apply Hk. eapply elem_of_sublist; [done|apply sort_keys_sublist]. }
  unfold interaction_id_sort_keys in *. cbn [omap list_omap].
  destruct ys as [|y ys]; cbn [sort_key_of snd fst].
  - rewrite (lookup_group_skip k [] g _ Hskip). by rewrite IH.
  - rewrite fmap_cons. cbn [snd map concat].
    rewrite lookup_group_head.
    rewrite (lookup_group_skip k (y :: ys) g _ Hskip). by rewrite IH.
Qed.

(** All groups, in the order of the pages, hold each record that can be shown
    once. *)
Lemma ordered_groups_perm (all_items : list item) :
  concat (map (lookup_group (grouped_interactions all_items)) (ordered_ids all_items))
  ≡ₚ filter shown all_items.
Proof.
  unfold ordered_ids, ordered_interaction_ids.
  rewrite (concat_perm _
             (map (lookup_group (grouped_interactions all_items))
                (interaction_id_sort_keys (grouped_interactions all_items)).*2)).
  - rewrite sort_keys_groups_concat by apply grouped_interactions_NoDup.
    unfold grouped_interactions.
    rewrite sort_groups_concat, group_by_interaction_concat, list_filter_filter.
    done.
  - apply Permutation_map. apply fmap_Permutation. apply sorted_perm.
Qed.

Lemma histories_upto_ids (all_items : list item) (limit : Z) (n : nat) :
  limit ≠ 0 →
  histories_upto all_items limit n =
  concat (map (lookup_group (grouped_interactions all_items)) (pages_upto all_items limit n)).
Proof.
  intros Hl. unfold histories_upto, pages_upto.
  induction n as [|n IH]; [done|].
  rewrite seq_S, !map_app, !concat_app, IH. cbn [map concat].
  rewrite !app_nil_r, map_app, concat_app. f_equal.
  destruct (build_page_return all_items (Z.of_nat (1 + n)) limit Hl) as (d & -> & Hh & _).
  done.
Qed.

End Conservation.

(** X6.  For a limit of one or more, the histories of the pages
    [1 .. total_pages], taken together, hold every fetched record that carries
    a timestamp and a non-empty interaction id exactly once, and nothing
    else: no record is lost or repeated by the paging. *)
Theorem X6_pages_partition_shown_records (all_items : list item) (limit : Z) :
  1 ≤ limit →
  ∃ d : history_data,
    build_page all_items 1 limit = Return d ∧
    HistoryMore.histories_upto all_items limit (Z.to_nat (total_pages (meta d)))
    ≡ₚ filter HistoryMore.shown all_items.
Proof.
  intros Hl.
  destruct (build_page_return all_items 1 limit ltac:(lia)) as (d & Hd & _ & Htp & _).
  exists d. split; [done|].
  rewrite histories_upto_ids by lia.
  rewrite Htp, pages_upto_all by done.
  apply ordered_groups_perm.
Qed.

(** The sample log, two groups per page: the two pages hold the six records
    that have a timestamp and an interaction id. *)
Lemma X6_pages_partition_shown_records_witness :
  ∃ d, build_page Sample.log 1 2 = Return d ∧
       total_pages (meta d) = 2 ∧
       HistoryMore.histories_upto Sample.log 2 2 ≡ₚ filter HistoryMore.shown Sample.log ∧
       length (HistoryMore.histories_upto Sample.log 2 2) = 6%nat.
Proof.
  destruct (X6_pages_partition_shown_records Sample.log 2 ltac:(lia)) as (d & Hd & Hperm).
  assert (Htp : total_pages (meta d) = 2).
  { unfold build_page in Hd. cbv zeta in Hd. cbn [Z.eqb] in Hd.
    injection Hd as <-. reflexivity. }
  rewrite Htp in Hperm.
  exists d. split_and!; [exact Hd | exact Htp | exact Hperm | reflexivity].
Defined.

Section Ties.
Import HistoryMore.

Lemma members_app (l1 l2 : list item) (i : string) :
  members (l1 ++ l2) i = members l1 i ++ members l2 i.
Proof. unfold members, records_of. by rewrite !filter_app. Qed.

Lemma group_same_timestamp (all_items : list item) (i t : string) :
  filter (λ x, timestamp x = t) (lookup_group (grouped_interactions all_items) i) =
  filter (λ x, timestamp x = t) (members all_items i).
Proof.
  rewrite grouped_interactions_lookup.
  apply (sorted_stable Py.ascending timestamp).
  intros x y -> ->. apply leb_refl.
Qed.

Lemma fetched_ids_snoc (l : list item) (x : item) :
  fetched_ids (l ++ [x]) =
  fetched_ids l ++
  (if Py.truthy (x !! "InteractionId") then [Py.subscript x "InteractionId"] else []).
Proof.
  unfold fetched_ids, Py.subscript, Py.truthy. rewrite omap_app. f_equal.
  cbn [omap list_omap]. by destruct (x !! "InteractionId") as [[|c s]|].
Qed.

(** The keys of the dict of groups are the interaction ids in the order in
    which they are first met. *)
Lemma group_by_interaction_keys_order (all_items : list item) :
  (group_by_interaction all_items).*1 = distinct_in_order (fetched_ids all_items).
Proof.
  unfold group_by_interaction, distinct_in_order.
  induction all_items as [|x l IH] using rev_ind; [done|].
  rewrite fetched_ids_snoc, !foldl_app. cbn [foldl]. unfold group_step at 1.
  destruct (Py.truthy (x !! "InteractionId")); [|done].
  cbn [foldl]. by rewrite group_append_keys, IH.
Qed.

Lemma sublist_filter_fmap {A B : Type} (f : A → B) (P : A → Prop)
    `{!∀ x, Decision (P x)} (l : list A) :
  f <$> filter P l `sublist_of` f <$> l.
Proof.
  induction l as [|x l IH]; [done|]. rewrite filter_cons.
  destruct (decide (P x)); rewrite !fmap_cons; by constructor.
Qed.

End Ties.

(** X7.  Records of one interaction that bear the same timestamp are shown in
    the order in which they were fetched.  The handler fetches the answers,
    then the questions, then the corrections, so among such records the
    answers come first, then the questions, then the corrections. *)
Theorem X7_equal_timestamps_keep_fetch_order
    (answers questions corrections : list item) (i t : string) :
  let all_items := answers ++ questions ++ corrections in
  filter (λ x, timestamp x = t) (lookup_group (grouped_interactions all_items) i) =
  filter (λ x, timestamp x = t) (members answers i) ++
  filter (λ x, timestamp x = t) (members questions i) ++
  filter (λ x, timestamp x = t) (members corrections i).
Proof.
  intros all_items. unfold all_items.
  by rewrite group_same_timestamp, !members_app, !filter_app.
Qed.

(** X8.  Interactions with the same sort key are listed in the order in which
    their ids are first met in the fetched records: for every key [t], the
    ids with that key, in page order, form a subsequence of the distinct
    fetched ids in first-occurrence order. *)
Theorem X8_equal_keys_keep_first_seen_order (all_items : list item) :
  ∃ keys : list (string * string),
    ordered_ids all_items = keys.*2 ∧
    descending_by_key keys ∧
    Forall (λ k, is_max_timestamp k.1 (members all_items k.2)) keys ∧
    ∀ t : string,
      (filter (λ k : string * string, k.1 = t) keys).*2
      `sublist_of` HistoryMore.distinct_in_order (HistoryMore.fetched_ids all_items).
Proof.
  destruct (sort_keys_spec all_items) as (_ & _ & Hmax).
  exists (Py.sorted Py.descending fst
            (interaction_id_sort_keys (grouped_interactions all_items))).
  split_and!.
  - done.
  - apply (sorted_sorted Py.descending fst descending_total descending_trans).
  - apply Forall_forall. intros k Hk%sorted_elem_of.
    rewrite Forall_forall in Hmax. by apply Hmax.
  - intros t.
    rewrite (sorted_stable Py.descending fst (λ k : string * string, k.1 = t)).
    + etrans; [apply sublist_filter_fmap|].
      etrans; [apply sort_keys_sublist|].
      unfold grouped_interactions.
      by rewrite sort_groups_keys, group_by_interaction_keys_order.
    + intros x y -> Hy. unfold Py.descending. rewrite Hy. apply leb_refl.
Qed.

Section PageBounds.

Lemma slice_to_zero {A : Type} (l : list A) (start : Z) : Py.slice l start 0 = [].
Proof.
  unfold Py.slice, Py.slice_index. cbv zeta.
  replace (Z.to_nat _) with 0%nat at 1; [done|].
  cbn [Z.ltb Z.compare]. destruct (start <? 0) eqn:Hs; lia.
Qed.

Lemma slice_negative_stop {A : Type} (l : list A) (stop : Z) :
  stop < 0 →
  Py.slice l 0 stop = take (length l - Z.to_nat (- stop)) l.
Proof.
  intros Hs. unfold Py.slice, Py.slice_index. cbv zeta.
  rewrite (proj2 (Z.ltb_lt stop 0) Hs). cbn [Z.ltb Z.compare].
  rewrite Z.min_l by lia. cbn [Z.to_nat drop]. f_equal. lia.
Qed.

End PageBounds.

(** X9.  Page number zero is not refused: for every non-zero limit the
    request is answered with an empty history, while the number of groups in
    the response is the full one. *)
Theorem X9_page_zero_is_empty (all_items : list item) (limit : Z) :
  limit ≠ 0 →
  ∃ d : history_data,
    build_page all_items 0 limit = Return d ∧
    history d = [] ∧
    current_page (meta d) = 0 ∧
    total_interaction_groups (meta d) = length (ordered_ids all_items).
Proof.
  intros Hl.
  destruct (build_page_return all_items 0 limit Hl) as (d & Hd & Hh & _ & Htg & _).
  exists d. split_and!; [done| |by (unfold build_page in Hd; cbv zeta in Hd;
    rewrite (proj2 (Z.eqb_neq _ _) Hl) in Hd; injection Hd as <-)|done].
  rewrite Hh. unfold paginated_interaction_ids. cbv zeta.
  replace ((0 - 1) * limit + limit) with 0 by lia.
  by rewrite slice_to_zero.
Qed.

(** The sample log: page 0 is empty, three groups are reported. *)
Lemma X9_page_zero_is_empty_witness :
  ∃ d, build_page Sample.log 0 2 = Return d ∧ history d = [] ∧
       total_interaction_groups (meta d) = 3%nat.
Proof.
  destruct (X9_page_zero_is_empty Sample.log 2 ltac:(lia)) as (d & Hd & Hh & _ & Htg).
  exists d. split_and!; [exact Hd | exact Hh | exact Htg].
Defined.

(** X10.  A negative limit is not refused either: page 1 then shows all
    groups but the last [-limit] of the order (none when there are no more
    than [-limit] groups). *)
Theorem X10_negative_limit_drops_last_groups (all_items : list item) (limit : Z) :
  limit < 0 →
  ∃ d : history_data,
    build_page all_items 1 limit = Return d ∧
    let shown_ids := take (length (ordered_ids all_items) - Z.to_nat (- limit))
                       (ordered_ids all_items) in
    paginated_interaction_ids all_items 1 limit = shown_ids ∧
    history d = concat (map (lookup_group (grouped_interactions all_items)) shown_ids).
Proof.
  intros Hl.
  destruct (build_page_return all_items 1 limit ltac:(lia)) as (d & Hd & Hh & _).
  exists d. split; [done|]. intros shown_ids.
  assert (Hids : paginated_interaction_ids all_items 1 limit = shown_ids).
  { unfold paginated_interaction_ids. cbv zeta.
    replace ((1 - 1) * limit) with 0 by lia. rewrite Z.add_0_l.
    by apply slice_negative_stop. }
  split; [done|]. by rewrite Hh, Hids.
Qed.

(** The sample log with limit [-1]: the two most recent groups are shown. *)
Lemma X10_negative_limit_drops_last_groups_witness :
  paginated_interaction_ids Sample.log 1 (-1) = ["i1"; "i2"].
Proof.
  destruct (X10_negative_limit_drops_last_groups Sample.log (-1) ltac:(lia))
    as (d & _ & Hids & _).
  rewrite Hids. reflexivity.
Defined.

(** X11.  The interaction that holds the record with the strictly latest
    timestamp is the first group; with a limit of one or more, page 1 starts
    with its records. *)
Theorem X11_latest_activity_first (all_items : list item) (limit : Z)
    (x : item) (i : string) :
  1 ≤ limit →
  x ∈ members all_items i →
  (∀ (j : string) (y : item), j ≠ i → y ∈ members all_items j →
     String.ltb (timestamp y) (timestamp x) = true) →
  ∃ (d : history_data) (rest : list string) (tail : list item),
    build_page all_items 1 limit = Return d ∧
    ordered_ids all_items = i :: rest ∧
    history d = Py.sorted Py.ascending timestamp (members all_items i) ++ tail.
Proof.
  intros Hl Hx Hlatest.
  destruct (build_page_return all_items 1 limit ltac:(lia)) as (d & Hd & Hh & _).
  destruct (ordered_ids_spec all_items) as (keys & Hk & Hs & Hmax).
  assert (Hin : i ∈ keys.*2).
  { rewrite <- Hk, ordered_ids_elem. intros Hnil. rewrite Hnil in Hx.
    by apply elem_of_nil in Hx. }
  apply list_elem_of_fmap in Hin as ([ti i'] & Hi' & Hki). cbn in Hi'. subst i'.
  rewrite Forall_forall in Hmax.
  assert (Hti : String.leb (timestamp x) ti = true).
  { apply (Hmax _ Hki). exact Hx. }
  assert (Hhead : ∃ t0 keys', keys = (t0, i) :: keys').
  { destruct keys as [|[t0 j0] keys']; [by apply elem_of_nil in Hki|].
    exists t0, keys'. destruct (decide (j0 = i)) as [->|Hne]; [done|]. exfalso.
    destruct (Hmax (t0, j0) ltac:(by left)) as [(y & Hy & Hyt) _]. cbn in Hy, Hyt.
    pose proof (Hlatest j0 y Hne Hy) as Hlt. rewrite Hyt in Hlt.
    apply ltb_leb_false in Hlt.
    apply elem_of_cons in Hki as [[= <- <-]|Hki]; [done|].
    inversion Hs as [|? ? _ Hall]; subst. rewrite Forall_forall in Hall.
    pose proof (Hall _ Hki) as Hle. cbn in Hle.
    rewrite (leb_trans _ _ _ Hti Hle) in Hlt. done. }
  destruct Hhead as (t0 & keys' & ->). rewrite fmap_cons in Hk. cbn [snd] in Hk.
  exists d, keys'.*2.
  exists (concat (map (lookup_group (grouped_interactions all_items))
                    (take (Z.to_nat limit - 1) keys'.*2))).
  split_and!; [done..|].
  rewrite Hh, paginated_ids_nonneg, Hk by lia.
  replace (Z.to_nat ((1 - 1) * limit)) with 0%nat by lia.
  replace (Z.to_nat limit) with (S (Z.to_nat limit - 1)) at 1 by lia.
  cbn [drop take map concat]. by rewrite grouped_interactions_lookup.
Qed.

(** In the sample log the correction of [i1] is the latest record. *)
Lemma X11_latest_activity_first_witness :
  ∃ rest, ordered_ids Sample.log = "i1" :: rest.
Proof.
  assert (Hothers : Forall (λ y : item,
            y !! "InteractionId" = Some "i1" ∨
            String.ltb (timestamp y) "2024-05-01T10:00:09.000Z" = true) Sample.log).
  { apply (bool_decide_eq_true_1 _). vm_compute. reflexivity. }
  destruct (X11_latest_activity_first Sample.log 2
              (Sample.record "ADMIN_CORRECTION" "s1" "i1" "2024-05-01T10:00:09.000Z" "c1")
              "i1" ltac:(lia))
    as (d & rest & tail & _ & Hids & _).
  - apply (bool_decide_eq_true_1 _). vm_compute. reflexivity.
  - intros j y Hj Hy. unfold members, records_of in Hy.
    apply list_elem_of_filter in Hy as [_ Hy].
    apply list_elem_of_filter in Hy as [[_ Hid] Hy].
    rewrite Forall_forall in Hothers.
    destruct (Hothers y Hy) as [Hi1|Hlt]; [congruence|exact Hlt].
  - exists rest. exact Hids.
Defined.

Section CountsAddUp.
Import HistoryMore.

Lemma known_count (l : list item) :
  Forall known_event_type l →
  length l =
  (length (filter (event_type_is "QUESTION") l)
   + length (filter (event_type_is "AI_RESPONSE") l)
   + length (filter (event_type_is "ADMIN_CORRECTION") l))%nat.
Proof.
  induction 1 as [|x l Hx _ IH]; [done|].
  rewrite !filter_cons. cbn [length]. rewrite IH.
  destruct (decide (event_type_is "QUESTION" x)) as [H1|H1],
           (decide (event_type_is "AI_RESPONSE" x)) as [H2|H2],
           (decide (event_type_is "ADMIN_CORRECTION" x)) as [H3|H3];
    unfold event_type_is in *; simpl; try lia; try congruence;
    destruct Hx as [?|[?|?]]; congruence.
Qed.

Lemma length_concat_nonempty {A : Type} (ls : list (list A)) :
  Forall (λ l, l ≠ []) ls → (length ls ≤ length (concat ls))%nat.
Proof.
  induction 1 as [|l ls Hl _ IH]; [done|].
  cbn [concat length]. rewrite length_app. destruct l; [done|]. simpl. lia.
Qed.

Lemma ordered_ids_le_shown (all_items : list item) :
  (length (ordered_ids all_items) ≤ length (filter shown all_items))%nat.
Proof.
  rewrite <- (ordered_groups_perm all_items).
  etrans; [|apply length_concat_nonempty].
  - by rewrite length_map.
  - apply Forall_forall. intros l Hl.
    apply list_elem_of_In, in_map_iff in Hl as (i & <- & Hi%list_elem_of_In).
    apply ordered_ids_elem in Hi.
    by rewrite grouped_interactions_lookup, sorted_nil_iff.
Qed.

End CountsAddUp.

(** X12.  The number of interaction groups never exceeds the number of log
    entries; and when every fetched record is a question, an AI response or an
    admin correction (as records read by event type are), the number of log
    entries is the sum of the three counts by event type. *)
Theorem X12_summary_counts_add_up (all_items : list item) (page limit : Z) :
  limit ≠ 0 →
  ∃ d : history_data,
    build_page all_items page limit = Return d ∧
    (totalInteractionGroups (summary d) ≤ totalIndividualLogEntries (summary d))%nat ∧
    (Forall HistoryMore.known_event_type all_items →
     totalIndividualLogEntries (summary d) =
     (totalQuestions (summary d) + totalAIResponses (summary d)
      + totalAdminCorrections (summary d))%nat).
Proof.
  intros Hl.
  destruct (build_page_return all_items page limit Hl)
    as (d & Hd & _ & _ & _ & Hsg & Hn & Hq & Ha & Hc & _).
  exists d. split_and!; [done| |].
  - rewrite Hsg, Hn. etrans; [apply ordered_ids_le_shown|apply length_filter].
  - intros Hknown. rewrite Hn, Hq, Ha, Hc. by apply known_count.
Qed.

(** The sample log: three groups, eight entries, 4 + 3 + 1. *)
Lemma X12_summary_counts_add_up_witness :
  ∃ d, build_page Sample.log 1 2 = Return d ∧
       (totalInteractionGroups (summary d) ≤ totalIndividualLogEntries (summary d))%nat ∧
       totalIndividualLogEntries (summary d) =
       (totalQuestions (summary d) + totalAIResponses (summary d)
        + totalAdminCorrections (summary d))%nat.
Proof.
  destruct (X12_summary_counts_add_up Sample.log 1 2 ltac:(lia)) as (d & Hd & Hle & Hsum).
  exists d. split_and!; [exact Hd | exact Hle |].
  apply Hsum. apply (bool_decide_eq_true_1 _). vm_compute. reflexivity.
Defined.

(** * Further properties of the correction intake *)

(** X13.  The correction handler changes the table only when it answers 200:
    with status 200 the body was complete and the returned table is the one
    [put_item] gave for the new correction record; with any other status the
    table is returned as it was. *)
Theorem X13_correction_written_iff_200 `{Table T} (table : T) (timestamp_str : string)
    (parsed_body : option item) :
  let result := handle_admin_correction table timestamp_str parsed_body in
  (statusCode result.1 = 200 →
   ∃ b, parsed_body = Some b ∧ missing_fields b = [] ∧
        put_item table (correction_item b timestamp_str) = inr result.2) ∧
  (statusCode result.1 ≠ 200 → result.2 = table).
Proof.
  cbv zeta. unfold handle_admin_correction.
  destruct parsed_body as [b|]; [|by split].
  destruct (forallb (λ f, Py.truthy (b !! f)) required_fields) eqn:Hall; cbn [negb];
    [|by split].
  destruct (put_item table (correction_item b timestamp_str)) as [[]|t'] eqn:Hput;
    cbn [fst snd statusCode create_response]; split; try done.
  intros _. exists b. split_and!; [done| |done].
  unfold missing_fields. apply filter_none. intros f Hf Hfalse.
  rewrite forallb_forall in Hall. apply list_elem_of_In in Hf.
  apply Hall in Hf. congruence.
Qed.

(** * Further properties of the correction matcher *)

Section MatcherMore.

Lemma missing_fields_none (b : item) :
  missing_fields b = [] →
  forallb (λ f, Py.truthy (b !! f)) required_fields = true.
Proof.
  intros Hnone. apply forallb_forall. intros f Hf%list_elem_of_In.
  destruct (Py.truthy (b !! f)) eqn:Ht; [done|].
  assert (f ∈ missing_fields b) as Hin
    by (unfold missing_fields; by apply list_elem_of_filter).
  rewrite Hnone in Hin. by apply elem_of_nil in Hin.
Qed.

Lemma correction_item_fields (b : item) (ts : string) :
  let c := correction_item b ts in
  c !! "EventType" = Some "ADMIN_CORRECTION" ∧
  c !! "Timestamp" = Some ts ∧
  c !! "SessionId" = Some (Py.subscript b "sessionId") ∧
  c !! "InteractionId" = Some (Py.subscript b "interactionId") ∧
  c !! "UserQuestion" = Some (Py.subscript b "userQuestion") ∧
  c !! "OriginalAIResponse" = Some (Py.subscript b "originalAIResponse") ∧
  c !! "Content" = Some (Py.subscript b "correctedAIResponse").
Proof.
  cbv zeta. unfold correction_item. cbv zeta.
  destruct (Py.truthy (b !! "adminId")); by simplify_map_eq.
Qed.

Lemma no_long_word_not_relevant (user_query : string) (c : item) :
  (∀ k, occurs_as_word k (Py.lower user_query) → (String.length k ≤ 2)%nat) →
  is_relevant user_query c = false.
Proof.
  intros Hshort. apply not_true_is_false. intros Hrel.
  apply is_relevant_iff in Hrel as (k & Hk & Hlen & _).
  apply findall_words_spec, Hshort in Hk. lia.
Qed.

End MatcherMore.

(** X14.  A query within ASCII none of whose words is longer than two
    characters retrieves no correction, whatever the table holds: the tool
    returns the no-match message. *)
Theorem X14_short_words_never_match `{Table T} (table : T) (user_query : string)
    (r : query_response) :
  ascii_text user_query = true →
  (∀ k, occurs_as_word k (Py.lower user_query) → (String.length k ≤ 2)%nat) →
  query table corrections_query = inr r →
  get_relevant_admin_corrections table user_query =
  "No relevant administrative corrections found.".
Proof.
  intros _ Hshort Hq. unfold get_relevant_admin_corrections. rewrite Hq. cbv zeta.
  rewrite relevant_corrections_take. unfold relevant_candidates.
  rewrite filter_none; [done|].
  intros c _. by rewrite (no_long_word_not_relevant _ c Hshort).
Qed.

(** The table of corrections, asked [Is it OK?]. *)
Lemma X14_short_words_never_match_witness :
  get_relevant_admin_corrections Sample.corrections_table "Is it OK?" =
  "No relevant administrative corrections found.".
Proof.
  apply (@X14_short_words_never_match _ MemTable.mem_table_Table Sample.corrections_table
           "Is it OK?" (MemTable.mem_query Sample.corrections_table corrections_query)).
  - reflexivity.
  - intros k Hk%findall_words_spec.
    change (Py.findall_words (Py.lower "Is it OK?")) with ["is"; "it"; "ok"] in Hk.
    repeat (apply elem_of_cons in Hk as [->|Hk]; [simpl; lia|]).
    by apply elem_of_nil in Hk.
  - reflexivity.
Defined.

(** X15.  Round trip from intake to matcher.  A complete correction request
    stored in an empty table is what the matcher then works on: for a
    relevant query the tool returns the header followed by the request's
    [userQuestion], [originalAIResponse] and [correctedAIResponse], and for
    any other query the no-match message. *)
Theorem X15_stored_correction_is_matched (n : nat) (timestamp_str user_query : string)
    (b : item) :
  (1 ≤ n)%nat →
  missing_fields b = [] →
  let result := handle_admin_correction (MemTable.empty n) timestamp_str (Some b) in
  result.1 = create_response 200 (Message "Admin correction saved successfully.") ∧
  MemTable.rows result.2 = [correction_item b timestamp_str] ∧
  get_relevant_admin_corrections result.2 user_query =
  if is_relevant user_query (correction_item b timestamp_str)
  then ("Relevant past administrative corrections:" ++ nl ++
        "User Question: " ++ Py.subscript b "userQuestion" ++ nl ++
        "Original AI Response: " ++ Py.subscript b "originalAIResponse" ++ nl ++
        "Corrected AI Response: " ++ Py.subscript b "correctedAIResponse")%string
  else "No relevant administrative corrections found.".
Proof.
  intros Hn Hb result.
  destruct (correction_item_fields b timestamp_str)
    as (He & Ht & _ & _ & Huq & Hor & Hco).
  set (c := correction_item b timestamp_str) in *.
  assert (Hres : result = (create_response 200 (Message "Admin correction saved successfully."),
                           {| MemTable.page_size := n; MemTable.rows := [c] |})).
  { unfold result, handle_admin_correction. by rewrite (missing_fields_none b Hb). }
  rewrite Hres. cbn [fst snd MemTable.rows]. split_and!; [done..|].
  unfold get_relevant_admin_corrections.
  cbn [query MemTable.mem_table_Table]. cbv zeta.
  assert (Hitems : items_of (MemTable.mem_query
                     {| MemTable.page_size := n; MemTable.rows := [c] |} corrections_query)
                   = [c]).
  { unfold items_of, MemTable.mem_query. cbv zeta.
    cbn [Items default from_option id Limit ExclusiveStartKey corrections_query
         MemTable.rows MemTable.page_size].
    unfold MemTable.index_scan.
    cbn [ScanIndexForward EventTypeValue corrections_query].
    rewrite (filter_cons_True _ c), filter_nil
      by (split; [done|by rewrite Ht]).
    cbn [Py.sorted Py.insert_by].
    destruct (Nat.min 20 n) as [|m] eqn:Hm; [lia|]. cbn [take].
    rewrite take_nil. by rewrite filter_all_true. }
  unfold relevant_corrections_of. rewrite Hitems. cbn [collect_relevant].
  destruct (is_relevant user_query c); [|done].
  cbn [app length Nat.leb collect_relevant Py.join].
  unfold format_correction, Py.get_default. by rewrite Huq, Hor, Hco.
Qed.

(** The complete sample request, and a query about mileage. *)
Lemma X15_stored_correction_is_matched_witness :
  get_relevant_admin_corrections
    (handle_admin_correction (MemTable.empty 5) "2024-05-01T10:00:10.000Z"
       (Some Sample.correction_body)).2
    "what about mileage" =
  ("Relevant past administrative corrections:" ++ nl ++
   "User Question: is mileage limited" ++ nl ++
   "Original AI Response: yes" ++ nl ++
   "Corrected AI Response: no, mileage is unlimited")%string.
Proof.
  destruct (X15_stored_correction_is_matched 5 "2024-05-01T10:00:10.000Z"
              "what about mileage" Sample.correction_body
              ltac:(lia) ltac:(vm_compute; reflexivity)) as (_ & _ & Hres).
  rewrite Hres. vm_compute. reflexivity.
Defined.

(** * The chat handler *)

(** X16.  What a chat request writes.  With status 200 the question was
    logged, the agent answered, and the answer was logged under the same
    session and interaction ids, which the reply carries.  With any other
    status the table is either untouched or holds the question alone: an
    answer is never logged without its question. *)
Theorem X16_chat_writes_question_then_answer `{Table T} (env : chat_env) (table : T)
    (parsed_body : option item) :
  let result := handle_chat_request env table parsed_body in
  (chat_status result.1 = 200 →
   ∃ (b : item) (table1 : T) (r : agent_result),
     let session_id := Py.get_default b "sessionId" (uuid_session env) in
     let user_question := Py.subscript b "userQuestion" in
     let text := ai_response_text_of r in
     parsed_body = Some b ∧
     put_item table (question_item session_id user_question (uuid_interaction env)
                       (clock_question env)) = inr table1 ∧
     agent env user_question = inr r ∧
     put_item table1 (ai_response_item session_id text user_question
                        (uuid_interaction env) (clock_answer env)) = inr result.2 ∧
     chat_body_of result.1 = ChatReply text session_id (uuid_interaction env)) ∧
  (chat_status result.1 ≠ 200 →
   result.2 = table ∨
   ∃ b : item,
     parsed_body = Some b ∧
     put_item table (question_item (Py.get_default b "sessionId" (uuid_session env))
                       (Py.subscript b "userQuestion") (uuid_interaction env)
                       (clock_question env)) = inr result.2).
Proof.
  cbv zeta. unfold handle_chat_request.
  destruct parsed_body as [b|]; [|split; [done|by left]].
  cbv zeta.
  destruct (Py.truthy (b !! "userQuestion")); cbn [negb]; [|split; [done|by left]].
  unfold _log_user_question, _log_ai_response.
  destruct (put_item table _) as [e1|table1] eqn:Hq.
  { split; [by destruct e1|by left]. }
  destruct (agent env _) as [e2|r] eqn:Ha.
  { split; [by destruct e2|]. intros _. right. by exists b. }
  destruct (put_item table1 _) as [e3|table2] eqn:Hp.
  { split; [by destruct e3|]. intros _. right. by exists b. }
  split; [|done]. intros _. by exists b, table1, r.
Qed.

(** X17.  A chat request without a [userQuestion] (absent or empty) is
    answered with status 400; nothing is written and the agent is not asked,
    whatever it would have done. *)
Theorem X17_chat_without_question_is_400 `{Table T} (env : chat_env) (table : T)
    (b : item) :
  b !! "userQuestion" = None ∨ b !! "userQuestion" = Some "" →
  handle_chat_request env table (Some b) =
  ({| chat_status := 400;
      chat_body_of := ChatMessage "Missing 'userQuestion' in request body." |}, table).
Proof.
  intros Hb. unfold handle_chat_request. cbv zeta.
  by destruct Hb as [-> | ->].
Qed.

(** A body with a session id only, and an agent that would fail. *)
Lemma X17_chat_without_question_is_400_witness :
  handle_chat_request Sample3.failing_env (MemTable.empty 5) (Some Sample3.chat_body_empty) =
  ({| chat_status := 400;
      chat_body_of := ChatMessage "Missing 'userQuestion' in request body." |},
   MemTable.empty 5).
Proof.
  apply (X17_chat_without_question_is_400 Sample3.failing_env (MemTable.empty 5)
           Sample3.chat_body_empty).
  left. reflexivity.
Defined.

Section ChatRoundTrip.
Import MemTable.

Lemma single_record_page (q : item) (i tq : string) :
  i ≠ "" → q !! "InteractionId" = Some i → q !! "Timestamp" = Some tq →
  ∃ d, build_page [q] 1 10 = Return d ∧
       history d = [q] ∧
       total_interaction_groups (meta d) = 1%nat ∧
       totalQuestions (summary d) = length (filter (event_type_is "QUESTION") [q]) ∧
       totalAIResponses (summary d) = length (filter (event_type_is "AI_RESPONSE") [q]).
Proof.
  intros Hi Hqi Hqt.
  assert (Hmem : ∀ j, members [q] j = if decide (j = i) then [q] else []).
  { intros j. unfold members, records_of. destruct (decide (j = i)) as [->|Hne].
    - rewrite (filter_cons_True _ q), filter_nil by done.
      by rewrite filter_cons_True, filter_nil by (unfold has_timestamp; by rewrite Hqt).
    - by rewrite filter_cons_False, filter_nil by (intros [_ ?]; congruence). }
  assert (Hids : ordered_ids [q] = [i]).
  { apply NoDup_only; [apply ordered_ids_NoDup|].
    intros j. rewrite ordered_ids_elem, Hmem. by destruct (decide (j = i)). }
  assert (Hgroup : lookup_group (grouped_interactions [q]) i = [q]).
  { by rewrite grouped_interactions_lookup, Hmem, decide_True by done. }
  assert (Hpage : paginated_interaction_ids [q] 1 10 = [i]).
  { unfold paginated_interaction_ids. cbv zeta. by rewrite Hids. }
  destruct (build_page_return [q] 1 10 ltac:(done))
    as (d & Hd & Hh & _ & Htg & _ & _ & Hq & Ha & _).
  exists d. split_and!; [done| | |done..].
  - rewrite Hh, Hpage. cbn [map concat]. by rewrite Hgroup, app_nil_r.
  - by rewrite Htg, Hids.
Qed.

Lemma fetch_single (n fuel : nat) (q : item) (event_type : string) :
  (1 ≤ n)%nat →
  q !! "EventType" = Some "QUESTION" → is_Some (q !! "Timestamp") →
  fetch_all_items_for_event_type (S fuel) {| page_size := n; rows := [q] |} event_type None =
  Return (if decide (event_type = "QUESTION") then [q] else []).
Proof.
  intros Hn Hq Hqt.
  assert (Hscan : index_scan (history_query event_type None None) [q] =
                  if decide (event_type = "QUESTION") then [q] else []).
  { unfold index_scan. cbn [ScanIndexForward EventTypeValue history_query].
    destruct (decide (event_type = "QUESTION")) as [->|Hne].
    - by rewrite filter_cons_True by done.
    - by rewrite filter_cons_False by (intros [? _]; congruence). }
  rewrite mem_fetch_one_page; cbn [rows page_size]; rewrite Hscan.
  - by rewrite filter_all_true.
  - case_decide; simpl; lia.
Qed.

End ChatRoundTrip.

(** X18.  Round trip from chat to history.  A chat request with a question,
    served from an empty table by an agent that answers, is replied to with
    status 200; when the answer is logged at a later clock reading than the
    question, the history request (page 1, limit 10, no session filter) then
    shows exactly one interaction group: the question followed by the answer
    the caller received. *)
Theorem X18_chat_then_history (env : chat_env) (n fuel : nat) (b : item)
    (r : agent_result) :
  (1 ≤ n)%nat →
  Py.truthy (b !! "userQuestion") = true →
  uuid_interaction env ≠ "" →
  String.ltb (clock_question env) (clock_answer env) = true →
  agent env (Py.subscript b "userQuestion") = inr r →
  let session_id := Py.get_default b "sessionId" (uuid_session env) in
  let user_question := Py.subscript b "userQuestion" in
  let text := ai_response_text_of r in
  let q := question_item session_id user_question (uuid_interaction env)
             (clock_question env) in
  let a := ai_response_item session_id text user_question (uuid_interaction env)
             (clock_answer env) in
  ∃ (table2 : MemTable.mem_table) (d : history_data),
    handle_chat_request env (MemTable.empty n) (Some b) =
      ({| chat_status := 200;
          chat_body_of := ChatReply text session_id (uuid_interaction env) |}, table2) ∧
    handle_admin_history_request (S fuel) table2 None (IntText 1) (IntText 10) =
      Some (create_response 200 (HistoryPage d)) ∧
    total_interaction_groups (meta d) = 1%nat ∧
    history d = [q; a].
Proof.
  intros Hn Huq Hi Hlt Hagent session_id user_question text q a.
  destruct (question_item_fields session_id user_question (uuid_interaction env)
              (clock_question env)) as (_ & Hqi & Hqt & Hqe & Hqk).
  destruct (ai_response_item_fields session_id text user_question (uuid_interaction env)
              (clock_answer env)) as (_ & Hai & Hat & Hae & Hak).
  fold q in Hqi, Hqt, Hqe, Hqk. fold a in Hai, Hat, Hae, Hak.
  destruct (round_trip_page q a _ _ _ Hi Hqi Hai Hqt Hat Hlt)
    as (d & Hd & Hh & _ & Htg & _).
  exists {| MemTable.page_size := n; MemTable.rows := [q; a] |}, d.
  split_and!; [| |done..].
  - unfold handle_chat_request. cbv zeta. rewrite Huq. cbn [negb].
    unfold _log_user_question. cbn [put_item MemTable.mem_table_Table].
    rewrite Hagent.
    unfold _log_ai_response. cbn [put_item MemTable.mem_table_Table].
    fold session_id user_question text. fold q a.
    cbn [MemTable.rows MemTable.page_size MemTable.empty MemTable.put_row].
    rewrite decide_False; [done|].
    unfold MemTable.primary_key. rewrite Hqk, Hak. intros Hkey.
    injection Hkey as Hkey. by apply sort_keys_differ in Hkey.
  - unfold handle_admin_history_request, History.fetch_all.
    rewrite !(fetch_pair n fuel q a) by (rewrite ?Hqt, ?Hat; eauto).
    cbn [bind]. repeat case_decide; try done.
    cbn [app int_param bind]. by rewrite Hd.
Qed.

(** The echoing agent answers [hello] in session [s1]. *)
Lemma X18_chat_then_history_witness :
  ∃ table2 d,
    handle_chat_request Sample3.echo_env (MemTable.empty 5) (Some Sample3.chat_body_hello) =
      ({| chat_status := 200;
          chat_body_of := ChatReply "You asked: hello" "s1" "generated-interaction" |},
       table2) ∧
    handle_admin_history_request 1 table2 None (IntText 1) (IntText 10) =
      Some (create_response 200 (HistoryPage d)) ∧
    history d =
      [ question_item "s1" "hello" "generated-interaction" "2024-05-01T10:00:00.000Z";
        ai_response_item "s1" "You asked: hello" "hello" "generated-interaction"
          "2024-05-01T10:00:01.500Z" ].
Proof.
  destruct (X18_chat_then_history Sample3.echo_env 5 0 Sample3.chat_body_hello
              (StrResult "You asked: hello")
              ltac:(lia) ltac:(reflexivity) ltac:(discriminate) ltac:(reflexivity)
              ltac:(reflexivity))
    as (table2 & d & Hchat & Hhist & _ & Hh).
  exists table2, d. split_and!; [exact Hchat | exact Hhist | exact Hh].
Defined.

(** X19.  When the agent raises after the question was logged, the chat
    request is answered with the error and the question stays in the table
    without an answer: the history then shows an interaction group that holds
    the question alone, counted as one question and no AI response. *)
Theorem X19_failed_chat_leaves_question (env : chat_env) (n fuel : nat) (b : item)
    (e : exn) :
  (1 ≤ n)%nat →
  Py.truthy (b !! "userQuestion") = true →
  uuid_interaction env ≠ "" →
  agent env (Py.subscript b "userQuestion") = inl e →
  let q := question_item (Py.get_default b "sessionId" (uuid_session env))
             (Py.subscript b "userQuestion") (uuid_interaction env) (clock_question env) in
  ∃ (table1 : MemTable.mem_table) (d : history_data),
    handle_chat_request env (MemTable.empty n) (Some b) = (chat_error e, table1) ∧
    MemTable.rows table1 = [q] ∧
    handle_admin_history_request (S fuel) table1 None (IntText 1) (IntText 10) =
      Some (create_response 200 (HistoryPage d)) ∧
    history d = [q] ∧
    total_interaction_groups (meta d) = 1%nat ∧
    totalQuestions (summary d) = 1%nat ∧
    totalAIResponses (summary d) = 0%nat.
Proof.
  intros Hn Huq Hi Hagent q.
  destruct (question_item_fields (Py.get_default b "sessionId" (uuid_session env))
              (Py.subscript b "userQuestion") (uuid_interaction env) (clock_question env))
    as (_ & Hqi & Hqt & Hqe & _).
  fold q in Hqi, Hqt, Hqe.
  destruct (single_record_page q _ _ Hi Hqi Hqt) as (d & Hd & Hh & Htg & Hnq & Hna).
  exists {| MemTable.page_size := n; MemTable.rows := [q] |}, d.
  split_and!; [|done| |done|done| |].
  - unfold handle_chat_request. cbv zeta. rewrite Huq. cbn [negb].
    unfold _log_user_question. cbn [put_item MemTable.mem_table_Table].
    fold q. by rewrite Hagent.
  - unfold handle_admin_history_request, History.fetch_all.
    rewrite !(fetch_single n fuel q) by (rewrite ?Hqt; eauto).
    cbn [bind]. repeat case_decide; try done.
    cbn [app int_param bind]. by rewrite Hd.
  - rewrite Hnq. by rewrite filter_cons_True by done.
  - rewrite Hna. by rewrite filter_cons_False by (unfold event_type_is; congruence).
Qed.

(** The failing agent: the question [hello] is left without an answer. *)
Lemma X19_failed_chat_leaves_question_witness :
  ∃ table1 d,
    handle_chat_request Sample3.failing_env (MemTable.empty 5)
      (Some Sample3.chat_body_hello) =
      ({| chat_status := 500;
          chat_body_of := ChatMessage "An AWS service error occurred: ThrottlingException" |},
       table1) ∧
    handle_admin_history_request 1 table1 None (IntText 1) (IntText 10) =
      Some (create_response 200 (HistoryPage d)) ∧
    history d =
      [question_item "s1" "hello" "generated-interaction" "2024-05-01T10:00:00.000Z"].
Proof.
  destruct (X19_failed_chat_leaves_question Sample3.failing_env 5 0 Sample3.chat_body_hello
              (ClientError "ThrottlingException")
              ltac:(lia) ltac:(reflexivity) ltac:(discriminate) ltac:(reflexivity))
    as (table1 & d & Hchat & _ & Hhist & Hh & _).
  exists table1, d. split_and!; [exact Hchat | exact Hhist | exact Hh].
Defined.

(** * The entry point *)

Section Routing.

Lemma endswith_refl (s : string) : endswith s s = true.
Proof. destruct s; cbn [endswith]; by rewrite String.eqb_refl. Qed.

Lemma endswith_app (p suffix : string) : endswith (p ++ suffix) suffix = true.
Proof.
  induction p as [|c p IH]; [apply endswith_refl|].
  rewrite append_cons. cbn [endswith]. rewrite IH. by destruct (String.eqb _ _).
Qed.

Lemma endswith_inv (s suffix : string) :
  endswith s suffix = true → ∃ p, s = (p ++ suffix)%string.
Proof.
  induction s as [|c s IH]; cbn [endswith].
  - destruct (String.eqb_spec "" suffix) as [<-|]; [|done]. by exists "".
  - destruct (String.eqb_spec (String c s) suffix) as [<-|_]; [by exists ""|].
    intros (p & ->)%IH. by exists (String c p).
Qed.

Lemma string_length_app (s t : string) :
  String.length (s ++ t) = (String.length s + String.length t)%nat.
Proof. induction s as [|c s IH]; [done|]. rewrite append_cons. cbn. by rewrite IH. Qed.

(** Of two suffixes of one string, the shorter is a suffix of the longer. *)
Lemma endswith_both (p p' a b : string) :
  (p ++ a)%string = (p' ++ b)%string →
  (String.length b ≤ String.length a)%nat →
  endswith a b = true.
Proof.
  revert p'. induction p as [|c p IH]; intros p' Heq Hlen.
  - rewrite append_nil_l in Heq. subst a. apply endswith_app.
  - destruct p' as [|c' p'].
    + rewrite append_nil_l in Heq. subst b.
      rewrite append_cons in Hlen. cbn in Hlen. rewrite string_length_app in Hlen. lia.
    + rewrite !append_cons in Heq. injection Heq as _ Heq. by apply (IH p').
Qed.

Lemma chat_path_is_not_correct (prefix : string) :
  endswith (prefix ++ "/chat") "/admin/correct" = false.
Proof.
  apply not_true_is_false. intros (p' & Heq)%endswith_inv.
  assert (endswith "/admin/correct" "/chat" = true) as Habs; [|done].
  apply (endswith_both p' prefix); [done|simpl; lia].
Qed.

End Routing.

(** X20.  Requests are routed by method and by the end of the path, whatever
    comes before it (a stage name, say): a POST to [.../admin/correct] goes to
    the correction handler, a POST to [.../chat] to the chat handler, a GET to
    [.../admin/history] to the history handler, and the response and table of
    that handler are returned. *)
Theorem X20_routing_by_path_suffix `{Table T} (env : chat_env) (clock : string)
    (fuel : nat) (table : T) (prefix : string) (b : option item)
    (sid : option string) (page limit : query_param) :
  lambda_handler env clock fuel table
    {| httpMethod := Some "POST"; path := prefix ++ "/admin/correct"; event_body := b;
       param_sessionId := sid; param_page := page; param_limit := limit |} =
    Some (ApiResponse (handle_admin_correction table clock b).1,
          (handle_admin_correction table clock b).2) ∧
  lambda_handler env clock fuel table
    {| httpMethod := Some "POST"; path := prefix ++ "/chat"; event_body := b;
       param_sessionId := sid; param_page := page; param_limit := limit |} =
    Some (ApiChatResponse (handle_chat_request env table b).1,
          (handle_chat_request env table b).2) ∧
  lambda_handler env clock fuel table
    {| httpMethod := Some "GET"; path := prefix ++ "/admin/history"; event_body := b;
       param_sessionId := sid; param_page := page; param_limit := limit |} =
    (λ r, (ApiResponse r, table)) <$> handle_admin_history_request fuel table sid page limit.
Proof.
  unfold lambda_handler.
  cbn [httpMethod path event_body param_sessionId param_page param_limit].
  split_and!.
  - rewrite bool_decide_eq_true_2 by done. rewrite endswith_app. cbn [andb].
    by destruct (handle_admin_correction table clock b).
  - rewrite bool_decide_eq_true_2 by done.
    rewrite chat_path_is_not_correct, endswith_app. cbn [andb].
    by destruct (handle_chat_request env table b).
  - rewrite (bool_decide_eq_false_2 (Some "GET" = Some "POST")) by done.
    rewrite bool_decide_eq_true_2 by done. rewrite endswith_app. cbn [andb].
    by destruct (handle_admin_history_request fuel table sid page limit).
Qed.

(** X21.  Only a POST can change the table: for any other method the table is
    returned as it was; and a method that is neither POST nor GET (or a missing
    method) is answered with status 400 and the unsupported-request message. *)
Theorem X21_only_post_writes `{Table T} (env : chat_env) (clock : string)
    (fuel : nat) (table : T) (e : event) :
  httpMethod e ≠ Some "POST" →
  (∀ r table', lambda_handler env clock fuel table e = Some (r, table') → table' = table) ∧
  (httpMethod e ≠ Some "GET" →
   lambda_handler env clock fuel table e =
   Some (ApiResponse (create_response 400 (Message "Unsupported HTTP method or path.")),
         table)).
Proof.
  intros Hpost. unfold lambda_handler. cbv zeta.
  rewrite (bool_decide_eq_false_2 _ Hpost). cbn [andb]. split.
  - intros r table'.
    destruct (bool_decide (httpMethod e = Some "GET") && endswith (path e) "/admin/history").
    + destruct (handle_admin_history_request _ _ _ _ _); [|done]. by intros [= _ <-].
    + by intros [= _ <-].
  - intros Hget. by rewrite (bool_decide_eq_false_2 _ Hget).
Qed.

(** A DELETE on the chat path. *)
Lemma X21_only_post_writes_witness :
  lambda_handler Sample3.echo_env "2024-05-01T10:00:00.000Z" 1 (MemTable.empty 5)
    Sample4.delete_chat =
  Some (ApiResponse (create_response 400 (Message "Unsupported HTTP method or path.")),
        MemTable.empty 5).
Proof.
  destruct (X21_only_post_writes Sample3.echo_env "2024-05-01T10:00:00.000Z" 1
              (MemTable.empty 5) Sample4.delete_chat ltac:(discriminate)) as [_ Hunsupported].
  apply Hunsupported. discriminate.
Defined.

(** * The clock *)

Section ClockFormat.
Import Clock.

Lemma zero_padded_length (w : nat) (n : N) : String.length (zero_padded w n) = w.
Proof.
  revert n. induction w as [|w IH]; intros n; [done|].
  cbn [zero_padded]. rewrite string_length_app, IH. simpl. lia.
Qed.

Lemma zero_padded_three (n : N) :
  zero_padded 6 n = (zero_padded 3 (n / 1000) ++ zero_padded 3 n)%string.
Proof.
  cbn [zero_padded]. rewrite !append_nil_l, !append_assoc.
  replace (n / 10 / 10 / 10)%N with (n / 1000)%N; [done|].
  rewrite !N.Div0.div_div. done.
Qed.

Lemma list_ascii_of_string_app (s t : string) :
  list_ascii_of_string (s ++ t) = list_ascii_of_string s ++ list_ascii_of_string t.
Proof. induction s as [|c s IH]; [done|]. rewrite append_cons. cbn. by rewrite IH. Qed.

Lemma list_ascii_length (s : string) : length (list_ascii_of_string s) = String.length s.
Proof. induction s as [|c s IH]; [done|]. cbn. by rewrite IH. Qed.

Lemma drop_last_three_app (s t : string) :
  String.length t = 3%nat → drop_last_three (s ++ t) = s.
Proof.
  intros Ht. unfold drop_last_three.
  rewrite slice_negative_stop by lia.
  rewrite list_ascii_of_string_app, length_app, !list_ascii_length, Ht.
  replace (String.length s + 3 - Z.to_nat (- -3))%nat with (String.length s) by lia.
  rewrite <- (list_ascii_length s), take_app_length.
  apply string_of_list_ascii_of_string.
Qed.

Lemma strftime_millis (d : datetime) :
  strftime d = (iso_millis d ++ zero_padded 3 (microsecond d))%string.
Proof.
  unfold strftime, iso_millis. rewrite zero_padded_three.
  by rewrite !append_assoc.
Qed.

(** The timestamp text is the date and time down to the millisecond,
    followed by [Z]. *)
Lemma timestamp_text (d : datetime) :
  get_utc_timestamp_str d = (iso_millis d ++ "Z")%string.
Proof.
  unfold get_utc_timestamp_str.
  by rewrite strftime_millis, drop_last_three_app by apply zero_padded_length.
Qed.

Lemma digit_compare (n m : N) :
  Ascii.compare (digit n) (digit m) = (n mod 10 ?= m mod 10)%N.
Proof.
  unfold Ascii.compare, digit.
  pose proof (N.mod_upper_bound n 10 ltac:(done)).
  pose proof (N.mod_upper_bound m 10 ltac:(done)).
  rewrite !N_ascii_embedding by lia.
  destruct (N.compare_spec (n mod 10) (m mod 10)) as [Heq|Hlt|Hgt].
  - rewrite Heq. apply N.compare_refl.
  - apply N.compare_lt_iff. lia.
  - apply N.compare_gt_iff. lia.
Qed.

Lemma compare_by_digits (n m : N) (c : comparison) :
  match (n / 10 ?= m / 10)%N with
  | Eq => match (n mod 10 ?= m mod 10)%N with Eq => c | o => o end
  | o => o
  end =
  match (n ?= m)%N with Eq => c | o => o end.
Proof.
  pose proof (N.div_mod n 10 ltac:(done)) as Hn.
  pose proof (N.div_mod m 10 ltac:(done)) as Hm.
  pose proof (N.mod_upper_bound n 10 ltac:(done)) as Hbn.
  pose proof (N.mod_upper_bound m 10 ltac:(done)) as Hbm.
  generalize dependent (n mod 10)%N. generalize dependent (m mod 10)%N.
  generalize dependent (n / 10)%N. generalize dependent (m / 10)%N.
  intros qm qn rm Hm Hbm rn Hn Hbn.
  destruct (N.compare_spec qn qm) as [Hq|Hq|Hq].
  - destruct (N.compare_spec rn rm) as [Hr|Hr|Hr].
    + replace m with n by lia. by rewrite N.compare_refl.
    + by rewrite (proj2 (N.compare_lt_iff n m)) by lia.
    + by rewrite (proj2 (N.compare_gt_iff n m)) by lia.
  - by rewrite (proj2 (N.compare_lt_iff n m)) by lia.
  - by rewrite (proj2 (N.compare_gt_iff n m)) by lia.
Qed.

Lemma mod_ten_times (n p : N) :
  ((n mod (10 * p)) / 10 = (n / 10) mod p ∧ (n mod (10 * p)) mod 10 = n mod 10)%N.
Proof.
  rewrite N.Div0.mod_mul_r.
  pose proof (N.mod_upper_bound n 10 ltac:(done)) as Hr.
  generalize dependent (n mod 10)%N. generalize dependent ((n / 10) mod p)%N.
  intros q r Hr. split.
  - symmetry. apply (N.div_unique _ 10 q r); lia.
  - symmetry. apply (N.mod_unique _ 10 q r); lia.
Qed.

(** Zero-padded numbers of one width compare like the numbers. *)
Lemma compare_zero_padded (w : nat) (n m : N) (s t : string) :
  String.compare (zero_padded w n ++ s) (zero_padded w m ++ t) =
  match (n mod 10 ^ N.of_nat w ?= m mod 10 ^ N.of_nat w)%N with
  | Eq => String.compare s t
  | o => o
  end.
Proof.
  revert n m s t. induction w as [|w IH]; intros n m s t.
  - cbn [zero_padded]. rewrite !append_nil_l. cbn [N.of_nat N.pow].
    by rewrite !N.mod_1_r.
  - cbn [zero_padded]. rewrite !append_assoc, !append_cons, !append_nil_l, IH.
    cbn [String.compare]. rewrite digit_compare.
    replace (10 ^ N.of_nat (S w))%N with (10 * 10 ^ N.of_nat w)%N
      by (rewrite Nat2N.inj_succ, N.pow_succ_r'; done).
    rewrite <- (compare_by_digits (n mod (10 * 10 ^ N.of_nat w))
                                 (m mod (10 * 10 ^ N.of_nat w))).
    destruct (mod_ten_times n (10 ^ N.of_nat w)) as [-> ->].
    destruct (mod_ten_times m (10 ^ N.of_nat w)) as [-> ->].
    done.
Qed.

Lemma compare_same_head (c : ascii) (s t : string) :
  String.compare (String c s) (String c t) = String.compare s t.
Proof. cbn [String.compare]. by rewrite ascii_compare_refl. Qed.

End ClockFormat.

Ltac by_field a b :=
  destruct (N.compare_spec a b) as [->| |];
  [|symmetry; apply N.compare_lt_iff; lia|symmetry; apply N.compare_gt_iff; lia].

(** X22.  The text produced by [get_utc_timestamp_str] for a date and time
    with a four-digit year has 24 characters, [YYYY-MM-DDTHH:MM:SS.sssZ], and
    two such texts compare as strings exactly as the times they denote
    compare, down to the millisecond: the order used for sorting records is
    the order of the clock readings. *)
Theorem X22_timestamps_order_like_time (d1 d2 : Clock.datetime) :
  Clock.well_formed d1 → Clock.well_formed d2 →
  let t1 := Clock.get_utc_timestamp_str d1 in
  let t2 := Clock.get_utc_timestamp_str d2 in
  String.length t1 = 24%nat ∧
  t1 = (Clock.iso_millis d1 ++ "Z")%string ∧
  String.compare t1 t2 = (Clock.millisecond_rank d1 ?= Clock.millisecond_rank d2)%N ∧
  (String.ltb t1 t2 = true ↔ (Clock.millisecond_rank d1 < Clock.millisecond_rank d2)%N).
Proof.
  intros Hd1 Hd2 t1 t2.
  assert (Hcmp : String.compare t1 t2 =
                 (Clock.millisecond_rank d1 ?= Clock.millisecond_rank d2)%N).
  { unfold t1, t2. rewrite !timestamp_text. unfold Clock.iso_millis.
    rewrite !append_assoc, !append_cons, !append_nil_l.
    repeat (rewrite compare_zero_padded || rewrite compare_same_head).
    destruct d1 as [y1 mo1 da1 h1 mi1 s1 us1], d2 as [y2 mo2 da2 h2 mi2 s2 us2].
    unfold Clock.well_formed, Clock.millisecond_rank in *.
    cbn [Clock.year Clock.month Clock.day Clock.hour Clock.minute Clock.second
         Clock.microsecond] in *.
    assert (Hms1 : (us1 / 1000 < 1000)%N) by (apply N.Div0.div_lt_upper_bound; lia).
    assert (Hms2 : (us2 / 1000 < 1000)%N) by (apply N.Div0.div_lt_upper_bound; lia).
    generalize dependent (us1 / 1000)%N. generalize dependent (us2 / 1000)%N.
    intros ms2 Hms2 ms1 Hms1.
    change (10 ^ N.of_nat 4)%N with 10000%N. change (10 ^ N.of_nat 2)%N with 100%N.
    change (10 ^ N.of_nat 3)%N with 1000%N.
    rewrite !N.mod_small by lia.
    by_field y1 y2. by_field mo1 mo2. by_field da1 da2. by_field h1 h2.
    by_field mi1 mi2. by_field s1 s2. by_field ms1 ms2.
    cbn. symmetry. apply N.compare_refl. }
  split_and!.
  - unfold t1. rewrite timestamp_text. unfold Clock.iso_millis.
    by rewrite !string_length_app, !zero_padded_length.
  - apply timestamp_text.
  - done.
  - unfold String.ltb. rewrite Hcmp, <- N.compare_lt_iff.
    by destruct (_ ?= _)%N.
Qed.

(** The two sample readings, 1.9 milliseconds apart, give texts that differ
    in the last digit. *)
Lemma X22_timestamps_order_like_time_witness :
  Clock.get_utc_timestamp_str Sample5.reading1 = "2024-05-01T10:00:09.250Z" ∧
  Clock.get_utc_timestamp_str Sample5.reading2 = "2024-05-01T10:00:09.251Z" ∧
  String.ltb (Clock.get_utc_timestamp_str Sample5.reading1)
             (Clock.get_utc_timestamp_str Sample5.reading2) = true.
Proof.
  destruct (X22_timestamps_order_like_time Sample5.reading1 Sample5.reading2)
    as (_ & _ & _ & Hlt).
  - unfold Clock.well_formed. cbn. lia.
  - unfold Clock.well_formed. cbn. lia.
  - split_and!; [vm_compute; reflexivity..|]. apply Hlt. vm_compute. reflexivity.
Defined.
